(** * audit-export: the report pipeline of [src/index.js]

    The program reads the JSON output of [npm audit] from standard input,
    flattens either schema into one list of vulnerability records, counts
    them, and hands a payload object to the template renderer.

    The development starts from the value [JSON.parse] returns; the JSON
    grammar, the template engine and the file system are outside of it. *)

From Stdlib Require Import String Ascii List ZArith Lia Bool DecimalString.
From Stdlib Require Import Permutation DecimalPos DecimalZ.
Import ListNotations.
Local Open Scope string_scope.
Set Warnings "-register-all".

(** ** The JavaScript values the program handles *)

Module Js.

(** Values as [JSON.parse] builds them, plus [undefined], which a property
    read of a missing key yields.  An object is the list of its own
    properties in the order [for ... in] enumerates them.  Numbers are the
    integer-valued ones below 10^21 in absolute value; strings are
    sequences of characters, one [ascii] per character. *)
Inductive value : Type :=
| VUndefined
| VNull
| VBool (b : bool)
| VNum (n : Z)
| VStr (s : string)
| VArr (items : list value)
| VObj (props : list (string * value)).

(** The one exception this program can raise on parsed JSON. *)
Inductive exn : Type := TypeError.

Inductive result (A : Type) : Type :=
| Ok (a : A)
| Throw (e : exn).

Arguments Ok {A} a.
Arguments Throw {A} e.

Definition bind {A B : Type} (r : result A) (k : A -> result B) : result B :=
  match r with
  | Ok a => k a
  | Throw e => Throw e
  end.

Notation "x <- r ;; k" := (bind r (fun x => k))
  (at level 61, r at next level, right associativity).

Fixpoint map_result {A B : Type} (f : A -> result B) (l : list A)
  : result (list B) :=
  match l with
  | [] => Ok []
  | x :: rest =>
      y <- f x ;;
      ys <- map_result f rest ;;
      Ok (y :: ys)
  end.

(** ToBoolean. *)
Definition truthy (v : value) : bool :=
  match v with
  | VUndefined | VNull => false
  | VBool b => b
  | VNum n => negb (Z.eqb n 0)
  | VStr s => negb (String.eqb s "")
  | VArr _ | VObj _ => true
  end.

(** Number::toString in radix 10, on the integers below 10^21 in absolute
    value, which print digit by digit; from there on JavaScript prints an
    exponent form, which is outside this model. *)
Definition number_to_string (n : Z) : string :=
  NilZero.string_of_int (Z.to_int n).

(** The property name of array index [i]. *)
Definition index_key (i : nat) : string :=
  NilZero.string_of_uint (Nat.to_uint i).

Definition indexed (l : list value) : list (string * value) :=
  combine (map index_key (seq 0 (length l))) l.

(** The characters of a string, each a one-character string: what
    iterating a string yields and what its index properties hold. *)
Definition chars (s : string) : list value :=
  map (fun c => VStr (String c EmptyString)) (list_ascii_of_string s).

(** Own enumerable properties, in [for ... in] order. *)
Definition own_props (v : value) : list (string * value) :=
  match v with
  | VObj props => props
  | VArr items => indexed items
  | VStr s => indexed (chars s)
  | _ => []
  end.

Fixpoint assoc (k : string) (l : list (string * value)) : option value :=
  match l with
  | [] => None
  | (k', v) :: rest => if String.eqb k k' then Some v else assoc k rest
  end.

(** [v[k]] for a [v] that is neither [null] nor [undefined].  Inherited
    properties ([length], [toString], ...) are left out: the program reads
    only the names [vulnerabilities], [advisories], [via], [title], [url],
    [name], [module_name], [severity], [cwe], [cves] and the keys a
    [for ... in] loop hands it, none of which a prototype defines. *)
Definition prop (v : value) (k : string) : value :=
  match assoc k (own_props v) with
  | Some x => x
  | None => VUndefined
  end.

(** [v.k] / [v[k]]: reading a property of [null] or [undefined] throws. *)
Definition get (v : value) (k : string) : result value :=
  match v with
  | VUndefined | VNull => Throw TypeError
  | _ => Ok (prop v k)
  end.

(** The keys [for (const k in v)] visits. *)
Definition for_in (v : value) : list string :=
  map fst (own_props v).

Definition has_key (v : value) (k : string) : bool :=
  existsb (String.eqb k) (for_in v).

(** Spread [...v]: arrays and strings are the iterable JSON values. *)
Definition iterable (v : value) : bool :=
  match v with
  | VArr _ | VStr _ => true
  | _ => false
  end.

Definition spread (v : value) : result (list value) :=
  match v with
  | VArr items => Ok items
  | VStr s => Ok (chars s)
  | _ => Throw TypeError
  end.

(** ToString.  An array prints as its elements joined with [","]; a plain
    object prints as ["[object Object]"] through [Object.prototype], unless
    an own (hence not callable) [toString] shadows it. *)
Fixpoint to_string (v : value) : result string :=
  match v with
  | VUndefined => Ok "undefined"
  | VNull => Ok "null"
  | VBool b => Ok (if b then "true" else "false")
  | VNum n => Ok (number_to_string n)
  | VStr s => Ok s
  | VArr items =>
      let fix elements (l : list value) : result (list string) :=
        match l with
        | [] => Ok []
        | x :: rest =>
            s <- match x with
                 | VUndefined | VNull => Ok ""
                 | _ => to_string x
                 end ;;
            ss <- elements rest ;;
            Ok (s :: ss)
        end in
      ss <- elements items ;;
      Ok (String.concat "," ss)
  | VObj props =>
      match assoc "toString" props with
      | Some _ => Throw TypeError
      | None => Ok "[object Object]"
      end
  end.

(** The text [Array.prototype.join] uses for one element. *)
Definition join_element (v : value) : result string :=
  match v with
  | VUndefined | VNull => Ok ""
  | _ => to_string v
  end.

(** [items.join(sep)]. *)
Definition array_join (sep : string) (items : list value) : result string :=
  ss <- map_result join_element items ;;
  Ok (String.concat sep ss).

(** [v.join(sep)]: only arrays have the method. *)
Definition method_join (v : value) (sep : string) : result string :=
  match v with
  | VArr items => array_join sep items
  | _ => Throw TypeError
  end.

(** [v.concat(arg)]: [Array.prototype.concat] splices an array argument and
    appends any other value as one element; [String.prototype.concat]
    appends the argument's text; nothing else has the method. *)
Definition method_concat (v arg : value) : result value :=
  match v with
  | VArr items =>
      Ok (VArr (items ++ match arg with
                         | VArr more => more
                         | other => [other]
                         end)%list)
  | VStr s => t <- to_string arg ;; Ok (VStr (s ++ t))
  | _ => Throw TypeError
  end.

(** [a === b].  Arrays and objects compare by identity; the program only
    compares values held by different allocations, or against a string
    literal, so two of them are never equal. *)
Definition strict_equals (a b : value) : bool :=
  match a, b with
  | VUndefined, VUndefined => true
  | VNull, VNull => true
  | VBool x, VBool y => Bool.eqb x y
  | VNum x, VNum y => Z.eqb x y
  | VStr x, VStr y => String.eqb x y
  | _, _ => false
  end.

(** [new Set(items)], in insertion order.  SameValueZero agrees with [===]
    on every value of this model. *)
Definition set_add (acc : list value) (v : value) : list value :=
  if existsb (strict_equals v) acc then acc else (acc ++ [v])%list.

Definition new_Set (items : list value) : list value :=
  fold_left set_add items [].

End Js.

Import Js.

(** ** The process environment *)

(** What [new Date()] reports: day of the month, month (0 to 11), year,
    hours, minutes, seconds, all in local time. *)
Record Date : Type := {
  getDate : nat;
  getMonth : nat;
  getFullYear : Z;
  getHours : nat;
  getMinutes : nat;
  getSeconds : nat
}.

(** The ambient state the script reads: [os.platform()], [process.argv],
    [process.cwd()] and the system clock. *)
Record Process : Type := {
  platform : string;
  argv : list string;
  cwd : string;
  now : Date
}.

(** [process.argv[i]]. *)
Definition arg (env : Process) (i : nat) : value :=
  match nth_error (argv env) i with
  | Some s => VStr s
  | None => VUndefined
  end.

(** ** src/index.js *)

Definition OUTPUT_FILE_NAME : string := "audit-report.html".

(** [join(paths)], lines 141-147. *)
Definition join (env : Process) (paths : list value) : result string :=
  if String.eqb (platform env) "win32"
  then array_join "\" paths
  else array_join "/" paths.

(** [getFinalPath(folderPath, filePath)], lines 27-29. *)
Definition getFinalPath (env : Process) (folderPath filePath : value)
  : result string :=
  if truthy filePath
  then join env [folderPath; filePath]
  else join env [folderPath; VStr OUTPUT_FILE_NAME].

(** Command-line arguments, lines 180-181. *)
Definition folderPath (env : Process) : value :=
  if truthy (arg env 2) then arg env 2 else VStr (cwd env).

Definition filePath (env : Process) : value := arg env 3.

(** The normalized record [processVulnerability] builds. *)
Record Vulnerability : Type := {
  link : value;
  name : value;
  package : value;
  severity : value;
  cwes : string
}.

(** [processVulnerability(vuln)], lines 124-134; [None] is the [undefined]
    a call returns when it falls off the end of the function. *)
Definition processVulnerability (vuln : value) : result (option Vulnerability) :=
  title <- get vuln "title" ;;
  if truthy title then
    url <- get vuln "url" ;;
    title <- get vuln "title" ;;
    pkg <- (n <- get vuln "name" ;;
            if truthy n then Ok n else get vuln "module_name") ;;
    sev <- get vuln "severity" ;;
    cwe <- get vuln "cwe" ;;
    cves <- get vuln "cves" ;;
    all <- method_concat (if truthy cwe then cwe else VArr []) cves ;;
    joined <- method_join all ", " ;;
    Ok (Some {| link := url; name := title; package := pkg;
                severity := sev; cwes := joined |})
  else Ok None.

(** A [for (const k in ...)] loop whose body updates one accumulator and
    may throw. *)
Fixpoint for_each {A : Type} (keys : list string)
  (body : string -> A -> result A) (acc : A) : result A :=
  match keys with
  | [] => Ok acc
  | k :: rest => acc' <- body k acc ;; for_each rest body acc'
  end.

(** The sequence [allVulns] of [getVulnerabilities] when line 116 is
    reached, lines 104-114. *)
Definition allVulns (data : value) : result (list value) :=
  vulns <- get data "vulnerabilities" ;;
  if truthy vulns then
    for_each (for_in vulns)
      (fun pkg acc =>
         entry <- get vulns pkg ;;
         via <- get entry "via" ;;
         items <- spread via ;;
         Ok (acc ++ items)%list)
      []
  else
    advisories <- get data "advisories" ;;
    if truthy advisories then
      for_each (for_in advisories)
        (fun vuln acc =>
           v <- get advisories vuln ;;
           Ok (acc ++ [v])%list)
        []
    else Ok [].

(** [.filter(vuln => vuln)]: a record is truthy, [undefined] is not. *)
Fixpoint keep_defined (l : list (option Vulnerability)) : list Vulnerability :=
  match l with
  | [] => []
  | Some v :: rest => v :: keep_defined rest
  | None :: rest => keep_defined rest
  end.

(** [getVulnerabilities(data)], lines 103-117. *)
Definition getVulnerabilities (data : value) : result (list Vulnerability) :=
  raw <- allVulns data ;;
  mapped <- map_result processVulnerability raw ;;
  Ok (keep_defined mapped).

(** [countVulnerabilities(vulnerabilities, severity)], lines 94-96. *)
Definition countVulnerabilities (vulnerabilities : list Vulnerability)
  (sev : string) : nat :=
  length (filter (fun vuln => strict_equals (severity vuln) (VStr sev))
            vulnerabilities).

(** [str(string)], lines 165-167. *)
Definition str (n : nat) : string := number_to_string (Z.of_nat n).

(** [checkNumLength(number)], lines 174-177. *)
Definition checkNumLength (number : string) : string :=
  if Nat.eqb (String.length number) 2 then number else "0" ++ number.

Definition months : list string :=
  ["January"; "February"; "March"; "April"; "May"; "June"; "July";
   "August"; "September"; "October"; "November"; "December"].

(** [getCurrentDate()], lines 153-158. *)
Definition getCurrentDate (env : Process) : string :=
  let d := now env in
  checkNumLength (str (getDate d)) ++ " of "
  ++ match nth_error months (getMonth d) with
     | Some m => m
     | None => "undefined"
     end
  ++ ", " ++ number_to_string (getFullYear d) ++ " - "
  ++ checkNumLength (str (getHours d)) ++ ":"
  ++ checkNumLength (str (getMinutes d)) ++ ":"
  ++ checkNumLength (str (getSeconds d)).

(** The object literal [templateData], lines 73-83. *)
Record TemplateData : Type := {
  vulnsFound : nat;
  vulnerableDependencies : nat;
  currentDate : string;
  criticalVulns : nat;
  highVulns : nat;
  moderateVulns : nat;
  lowVulns : nat;
  infoVulns : nat;
  vulnerabilities : list Vulnerability
}.

(** Line 75: the size of the set of [package] values. *)
Definition distinctPackages (vulnerabilities : list Vulnerability) : nat :=
  length (new_Set (map package vulnerabilities)).

(** The payload [generateHtmlTemplateContent] builds from the parsed
    input, lines 71-83. *)
Definition templateData (env : Process) (data : value) : result TemplateData :=
  vulnerabilities <- getVulnerabilities data ;;
  Ok {| vulnsFound := length vulnerabilities;
        vulnerableDependencies := distinctPackages vulnerabilities;
        currentDate := getCurrentDate env;
        criticalVulns := countVulnerabilities vulnerabilities "critical";
        highVulns := countVulnerabilities vulnerabilities "high";
        moderateVulns := countVulnerabilities vulnerabilities "moderate";
        lowVulns := countVulnerabilities vulnerabilities "low";
        infoVulns := countVulnerabilities vulnerabilities "info";
        vulnerabilities := vulnerabilities |}.

(** The same payload as the renderer receives it: an object with these
    property names, in the order of the literal. *)
Definition vulnerability_object (v : Vulnerability) : value :=
  VObj [("link", link v); ("name", name v); ("package", package v);
        ("severity", severity v); ("cwes", VStr (cwes v))].

Definition payload_object (t : TemplateData) : value :=
  VObj [("vulnsFound", VNum (Z.of_nat (vulnsFound t)));
        ("vulnerableDependencies", VNum (Z.of_nat (vulnerableDependencies t)));
        ("currentDate", VStr (currentDate t));
        ("criticalVulns", VNum (Z.of_nat (criticalVulns t)));
        ("highVulns", VNum (Z.of_nat (highVulns t)));
        ("moderateVulns", VNum (Z.of_nat (moderateVulns t)));
        ("lowVulns", VNum (Z.of_nat (lowVulns t)));
        ("infoVulns", VNum (Z.of_nat (infoVulns t)));
        ("vulnerabilities", VArr (map vulnerability_object (vulnerabilities t)))].

(** [generateHtmlTemplateContent(data)], lines 70-86, from the parsed
    input on; [render] stands for [ejs.render(TEMPLATE, _)]. *)
Definition generateHtmlTemplateContent (render : value -> result string)
  (env : Process) (data : value) : result string :=
  t <- templateData env data ;;
  render (payload_object t).

(** ** Vocabulary of the properties *)

(** The five severity literals the aggregator counts. *)
Definition severity_levels : list string :=
  ["critical"; "high"; "moderate"; "low"; "info"].

Definition known_severity (v : Vulnerability) : bool :=
  existsb (fun s => strict_equals (severity v) (VStr s)) severity_levels.

Definition severity_sum (vs : list Vulnerability) : nat :=
  countVulnerabilities vs "critical" + countVulnerabilities vs "high"
  + countVulnerabilities vs "moderate" + countVulnerabilities vs "low"
  + countVulnerabilities vs "info".

(** The values compared by content: everything but arrays and objects. *)
Definition primitive (v : value) : bool :=
  match v with
  | VArr _ | VObj _ => false
  | _ => true
  end.

(** A raw entry that is an object whose [title] is non-empty, that is,
    truthy. *)
Definition is_titled_object (e : value) : bool :=
  match e with
  | VObj _ => truthy (prop e "title")
  | _ => false
  end.

(** The relation between a raw entry and what the mapper makes of it: a
    record exactly for a titled object, named by the title. *)
Definition mapped_from (e : value) (r : option Vulnerability) : Prop :=
  (r <> None <-> is_titled_object e = true)
  /\ forall v, r = Some v -> name v = prop e "title".

Definition is_string (v : value) : bool :=
  match v with
  | VStr _ => true
  | _ => false
  end.

Definition absent_or_strings (v : value) : bool :=
  match v with
  | VUndefined => true
  | VArr items => forallb is_string items
  | _ => false
  end.

(** The raw entries of the data model: an advisory object or a plain
    string (any value but [null], in fact); where a title is present,
    [cwe] and [cves] are sequences of strings or absent. *)
Definition raw_entry_ok (e : value) : bool :=
  match e with
  | VUndefined | VNull => false
  | _ =>
      negb (truthy (prop e "title"))
      || (absent_or_strings (prop e "cwe") && absent_or_strings (prop e "cves"))
  end.

(** A package entry whose [via] can be spread. *)
Definition has_iterable_via (entry : value) : bool :=
  match entry with
  | VUndefined | VNull => false
  | _ => iterable (prop entry "via")
  end.

(** The elements of an entry's [via], when it is a sequence. *)
Definition via_elements (entry : value) : list value :=
  match prop entry "via" with
  | VArr items => items
  | VStr s => chars s
  | _ => []
  end.

(** The identifier strings of a [cwe] or [cves] field; none when the
    field is absent. *)
Definition identifiers (v : value) : list string :=
  match v with
  | VArr items =>
      flat_map (fun x => match x with VStr s => [s] | _ => [] end) items
  | _ => []
  end.

(** The [cwes] text as the specification words it: the CWE identifiers,
    then the CVE identifiers, joined with [", "]. *)
Definition spec_cwes (vuln : value) : string :=
  String.concat ", "
    (identifiers (prop vuln "cwe") ++ identifiers (prop vuln "cves"))%list.

(** The Schema Normalizer as the specification words it: the branch is
    chosen by which key the top-level object has. *)
Definition spec_allVulns (data : value) : list value :=
  if has_key data "vulnerabilities" then
    flat_map (fun entry => via_elements (snd entry))
      (own_props (prop data "vulnerabilities"))
  else if has_key data "advisories" then
    map snd (own_props (prop data "advisories"))
  else [].

Definition starts_with_digit (s : string) : bool :=
  match s with
  | String c _ => (48 <=? nat_of_ascii c)%nat && (nat_of_ascii c <=? 57)%nat
  | EmptyString => false
  end.

(** ** Sample inputs *)

Module Sample.

Definition clock : Date :=
  {| getDate := 2; getMonth := 10; getFullYear := 2026;
     getHours := 9; getMinutes := 5; getSeconds := 30 |}.

Definition linux : Process :=
  {| platform := "linux"; argv := ["node"; "audit-export"; "out"; "report.html"];
     cwd := "/home/dev/app"; now := clock |}.

Definition windows : Process :=
  {| platform := "win32"; argv := ["node"; "audit-export"];
     cwd := "C:\app"; now := clock |}.

(** [audit-export --folder out --name r.html --title "Security Report"],
    the first usage line of the README. *)
Definition titled : Process :=
  {| platform := "linux";
     argv := ["node"; "audit-export"; "--folder"; "out"; "--name"; "r.html";
              "--title"; "Security Report"];
     cwd := "/home/dev/app"; now := clock |}.

(** Scenario A of the specification. *)
Definition advisory_foo : value :=
  VObj [("title", VStr "Foo"); ("name", VStr "bar"); ("severity", VStr "high");
        ("cwe", VArr [VStr "CWE-1"]); ("cves", VArr [VStr "CVE-2020-1"])].

Definition legacy_doc : value :=
  VObj [("advisories", VObj [("1", advisory_foo)])].

(** An advisory as [npm audit] prints it since npm 7: [cwe], no [cves]. *)
Definition advisory_xss : value :=
  VObj [("title", VStr "Cross-site scripting"); ("name", VStr "marked");
        ("severity", VStr "moderate"); ("cwe", VArr [VStr "CWE-79"])].

Definition modern_doc : value :=
  VObj [("vulnerabilities",
         VObj [("marked", VObj [("via", VArr [advisory_xss])]);
               ("docs", VObj [("via", VArr [VStr "marked"])])])].

(** Both keys present, [vulnerabilities] holding [null]. *)
Definition null_vulnerabilities_doc : value :=
  VObj [("vulnerabilities", VNull);
        ("advisories", VObj [("1", advisory_foo)])].

(** A package entry without [via]. *)
Definition missing_via_doc : value :=
  VObj [("vulnerabilities",
         VObj [("marked", VObj [("via", VArr [advisory_xss])]);
               ("docs", VObj [("name", VStr "docs")])])].

Definition empty_doc : value := VObj [("auditReportVersion", VNum 2)].

Definition left_pad (sev : string) : Vulnerability :=
  {| link := VUndefined; name := VStr "Regex DoS"; package := VStr "left-pad";
     severity := VStr sev; cwes := "" |}.

End Sample.

(** ** The process around the pipeline *)

(** What [fs] offers the script: [fs.access(path, F_OK, cb)] reports
    whether the path is visible, and [fs.writeFile(path, data, cb)] leaves
    a disk and, on failure, hands the callback an error, held here as the
    text [console.error] prints for it (several lines, as a rule). *)
Class FileSystem (Disk : Type) : Type := {
  access : Disk -> string -> bool;
  writeFile : Disk -> string -> string -> Disk * option string
}.

(** How a run ends: [process.exit(code)], or an exception nobody catches,
    which is either the [SyntaxError] of [JSON.parse] or one thrown
    further down, and on which the process ends with status 1
    ([exit_status] below). *)
Inductive failure : Type :=
| SyntaxError
| Thrown (e : exn).

Inductive termination : Type :=
| Exit (code : nat)
| Uncaught (why : failure).

(** What a run leaves behind: the disk, what the script itself printed,
    one text per call of [console.log] and of [console.error], and how it
    ended. *)
Record Run (Disk : Type) : Type := {
  disk_after : Disk;
  stdout : list string;
  stderr : list string;
  ending : termination
}.

Arguments disk_after {Disk} r.
Arguments stdout {Disk} r.
Arguments stderr {Disk} r.
Arguments ending {Disk} r.

(** Lines 187-192: every chunk of standard input is appended to
    [inputData]. *)
Definition inputData (chunks : list string) : string :=
  fold_left (fun acc chunk => acc ++ chunk) chunks "".

(** [generateHtmlTemplateContent(data)] from the text on, lines 70-86:
    [parse] stands for [JSON.parse], [None] being its [SyntaxError]. *)
Definition generateHtmlFromText (parse : string -> option value)
  (render : value -> result string) (env : Process) (data : string)
  : failure + string :=
  match parse data with
  | None => inl SyntaxError
  | Some parsed =>
      match generateHtmlTemplateContent render env parsed with
      | Ok output => inr output
      | Throw e => inl (Thrown e)
      end
  end.

(** [writeOutput(path, data)], lines 52-63. *)
Definition writeOutput {Disk : Type} `{FileSystem Disk}
  (parse : string -> option value) (render : value -> result string)
  (env : Process) (disk : Disk) (path data : string) : Run Disk :=
  match generateHtmlFromText parse render env data with
  | inl why =>
      {| disk_after := disk; stdout := []; stderr := [];
         ending := Uncaught why |}
  | inr output =>
      match writeFile disk path output with
      | (disk', Some err) =>
          {| disk_after := disk'; stdout := [];
             stderr := ["Error: Unable to write to file. " ++ err];
             ending := Exit 1 |}
      | (disk', None) =>
          {| disk_after := disk'; stdout := ["Audit exported successfully!"];
             stderr := []; ending := Exit 0 |}
      end
  end.

(** [writeIfFolderExists(folderPath, finalPath, data)], lines 37-45. *)
Definition writeIfFolderExists {Disk : Type} `{FileSystem Disk}
  (parse : string -> option value) (render : value -> result string)
  (env : Process) (disk : Disk) (folder finalPath data : string) : Run Disk :=
  if access disk folder then writeOutput parse render env disk finalPath data
  else {| disk_after := disk; stdout := [];
          stderr := ["Error: The provided folder does not exist."];
          ending := Exit 1 |}.

(** [processInput(folderPath, filePath, inputData)], lines 16-19.  The
    folder is a string whenever it comes from the command line; [fs.access]
    throws on anything else. *)
Definition processInput {Disk : Type} `{FileSystem Disk}
  (parse : string -> option value) (render : value -> result string)
  (env : Process) (disk : Disk) (folder file : value) (data : string)
  : Run Disk :=
  match getFinalPath env folder file with
  | Throw e =>
      {| disk_after := disk; stdout := []; stderr := [];
         ending := Uncaught (Thrown e) |}
  | Ok finalPath =>
      match folder with
      | VStr f => writeIfFolderExists parse render env disk f finalPath data
      | _ =>
          {| disk_after := disk; stdout := []; stderr := [];
             ending := Uncaught (Thrown TypeError) |}
      end
  end.

(** The script from the end of standard input on, lines 180-197. *)
Definition main {Disk : Type} `{FileSystem Disk}
  (parse : string -> option value) (render : value -> result string)
  (env : Process) (disk : Disk) (chunks : list string) : Run Disk :=
  processInput parse render env disk (folderPath env) (filePath env)
    (inputData chunks).

(** ** Vocabulary of the further properties *)

(** The status the process ends with: the code given to [process.exit],
    and 1 after an uncaught exception. *)
Definition exit_status (e : termination) : nat :=
  match e with
  | Exit code => code
  | Uncaught _ => 1
  end.

(** An entry whose [severity] is the string [level], letter for letter. *)
Definition has_severity (level : string) (v : Vulnerability) : bool :=
  match severity v with
  | VStr s => String.eqb s level
  | _ => false
  end.

(** The readings a clock gives: a day and a time of two digits at most, a
    month of the table. *)
Definition clock_in_range (d : Date) : bool :=
  (getDate d <? 100)%nat && (getMonth d <? 12)%nat && (getHours d <? 100)%nat
  && (getMinutes d <? 100)%nat && (getSeconds d <? 100)%nat.

(** Reading a two-digit text back as a number. *)
Definition read_number (s : string) : option nat :=
  option_map Nat.of_uint (NilEmpty.uint_of_string s).

Fixpoint occurs (c : ascii) (s : string) : bool :=
  match s with
  | EmptyString => false
  | String a rest => Ascii.eqb a c || occurs c rest
  end.

(** The folder and the file name the command line selects. *)
Definition chosen_folder (env : Process) : string :=
  match nth_error (argv env) 2 with
  | Some f => if String.eqb f "" then cwd env else f
  | None => cwd env
  end.

Definition chosen_name (env : Process) : string :=
  match nth_error (argv env) 3 with
  | Some n => if String.eqb n "" then OUTPUT_FILE_NAME else n
  | None => OUTPUT_FILE_NAME
  end.

Definition separator (env : Process) : string :=
  if String.eqb (platform env) "win32" then "\" else "/".

(** The two shapes of report: advisories under arbitrary keys, and
    packages each holding a [via] sequence. *)
Definition legacy_document (advisories : list (string * value)) : value :=
  VObj [("advisories", VObj advisories)].

Definition package_entry (pkg : string * list value) : string * value :=
  (fst pkg, VObj [("via", VArr (snd pkg))]).

Definition modern_document (packages : list (string * list value)) : value :=
  VObj [("vulnerabilities", VObj (map package_entry packages))].

(** A disk for the examples: the visible paths and the files written;
    writing fails under a read-only prefix. *)
Module SampleDisk.

Record t : Type := {
  visible : list string;
  files : list (string * string);
  read_only : string
}.

#[global] Instance fs : FileSystem t := {
  access d p := existsb (String.eqb p) (visible d);
  writeFile d p data :=
    if String.prefix (read_only d) p
    then (d, Some "EACCES: permission denied")
    else ({| visible := p :: visible d; files := (p, data) :: files d;
             read_only := read_only d |}, None)
}.

Definition disk : t :=
  {| visible := ["out"; "/home/dev/app"]; files := []; read_only := "/etc" |}.

(** A parser and a renderer for the examples: one known document, and a
    page that shows the number of findings. *)
Definition parse (text : string) : option value :=
  if String.eqb text "{...}" then Some Sample.modern_doc else None.

Definition render (payload : value) : result string :=
  n <- to_string (prop payload "vulnsFound") ;;
  Ok ("<html>" ++ n ++ "</html>").

End SampleDisk.

(** ** Facts about the JavaScript operations *)

Section JsFacts.

Lemma truthy_string_nonempty (s : string) :
  truthy (VStr s) = true <-> s <> "".
Proof.
  simpl. destruct (String.eqb_spec s ""); simpl; split; intro H;
    congruence.
Qed.

Lemma get_of_truthy (v : value) (k : string) :
  truthy v = true -> get v k = Ok (prop v k).
Proof. destruct v; simpl; intro H; try reflexivity; discriminate. Qed.

Lemma get_of_defined (v : value) (k : string) :
  v <> VNull -> v <> VUndefined -> get v k = Ok (prop v k).
Proof. destruct v; simpl; intros H1 H2; try reflexivity; congruence. Qed.

Lemma assoc_absent (k : string) (props : list (string * value)) :
  existsb (String.eqb k) (map fst props) = false -> assoc k props = None.
Proof.
  induction props as [|[k' v] rest IH]; simpl; intro H.
  - reflexivity.
  - apply orb_false_iff in H. destruct H as [Hk Hrest].
    rewrite Hk. now apply IH.
Qed.

Lemma prop_without_key (v : value) (k : string) :
  has_key v k = false -> prop v k = VUndefined.
Proof.
  unfold has_key, for_in, prop. intro H.
  now rewrite (assoc_absent _ _ H).
Qed.

Lemma concat_two (sep a b : string) :
  String.concat sep [a; b] = a ++ sep ++ b.
Proof. reflexivity. Qed.

Lemma filter_length_le {A : Type} (f : A -> bool) (l : list A) :
  length (filter f l) <= length l.
Proof.
  induction l as [|x l IH]; simpl; [lia|].
  destruct (f x); simpl; lia.
Qed.

Lemma filter_length_all {A : Type} (f : A -> bool) (l : list A) :
  length (filter f l) = length l <-> forallb f l = true.
Proof.
  induction l as [|x l IH]; simpl.
  - tauto.
  - pose proof (filter_length_le f l) as Hle.
    destruct (f x); simpl.
    + rewrite <- IH. lia.
    + split; [lia | discriminate].
Qed.

Lemma set_add_length (acc : list value) (v : value) :
  length (set_add acc v) <= S (length acc).
Proof.
  unfold set_add. destruct (existsb _ acc); [lia|].
  rewrite length_app. simpl. lia.
Qed.

Lemma fold_set_add_length (l acc : list value) :
  length (fold_left set_add l acc) <= length acc + length l.
Proof.
  revert acc. induction l as [|x l IH]; intro acc; simpl; [lia|].
  pose proof (IH (set_add acc x)). pose proof (set_add_length acc x). lia.
Qed.

Lemma existsb_string_member (a : string) (acc : list string) :
  existsb (strict_equals (VStr a)) (map VStr acc) = true <-> In a acc.
Proof.
  induction acc as [|b acc IH]; simpl.
  - split; [discriminate | tauto].
  - rewrite orb_true_iff, IH, String.eqb_eq. split; intros [H|H]; auto.
Qed.

(** On strings, [new Set] keeps one copy of every distinct string. *)
Lemma fold_set_add_strings (names acc : list string) :
  NoDup acc ->
  exists r, fold_left set_add (map VStr names) (map VStr acc) = map VStr r
            /\ NoDup r
            /\ forall s, In s r <-> In s acc \/ In s names.
Proof.
  revert acc. induction names as [|a names IH]; intros acc Hnd; simpl.
  - exists acc. repeat split; auto. tauto.
  - unfold set_add at 2.
    destruct (existsb (strict_equals (VStr a)) (map VStr acc)) eqn:E.
    + apply existsb_string_member in E.
      destruct (IH acc Hnd) as (r & Hr & Hndr & Hin).
      exists r. repeat split; auto.
      * intro H. apply Hin in H. tauto.
      * intros [H|[H|H]]; apply Hin; subst; auto.
    + assert (Hnot : ~ In a acc).
      { intro H. apply existsb_string_member in H. congruence. }
      assert (Hnd' : NoDup (acc ++ [a])).
      { apply NoDup_app; [assumption | repeat constructor; simpl; tauto |].
        intros x Hx [Hy|[]]. subst. contradiction. }
      destruct (IH (acc ++ [a])%list Hnd') as (r & Hr & Hndr & Hin).
      exists r. rewrite map_app in Hr. simpl in Hr.
      repeat split; auto.
      * intro H. apply Hin in H. rewrite in_app_iff in H. simpl in H. tauto.
      * intro H. apply Hin. rewrite in_app_iff. simpl. tauto.
Qed.

Lemma new_Set_strings (names : list string) :
  length (new_Set (map VStr names)) = length (nodup string_dec names).
Proof.
  unfold new_Set.
  destruct (fold_set_add_strings names [] (NoDup_nil _)) as (r & Hr & Hnd & Hin).
  simpl in Hr. rewrite Hr, length_map.
  apply Permutation_length, NoDup_Permutation;
    [assumption | apply NoDup_nodup |].
  intro s. rewrite nodup_In, Hin. simpl. tauto.
Qed.

Lemma strict_equals_primitive (a b : value) :
  primitive a = true -> (strict_equals a b = true <-> a = b).
Proof.
  intro Ha.
  destruct a; try discriminate; destruct b; simpl;
    try (split; [discriminate | congruence]);
    try (split; reflexivity).
  - rewrite Bool.eqb_true_iff. split; congruence.
  - rewrite Z.eqb_eq. split; congruence.
  - rewrite String.eqb_eq. split; congruence.
Qed.

Lemma existsb_member (v : value) (acc : list value) :
  primitive v = true ->
  (existsb (strict_equals v) acc = true <-> In v acc).
Proof.
  intro Hv. rewrite existsb_exists. split.
  - intros (x & Hin & Heq). apply (strict_equals_primitive v x Hv) in Heq.
    now subst.
  - intro Hin. exists v. split; [assumption|].
    now apply strict_equals_primitive.
Qed.

(** Over values compared by content, [new Set] holds every value once. *)
Lemma fold_set_add_primitives (l acc : list value) :
  forallb primitive l = true -> NoDup acc ->
  NoDup (fold_left set_add l acc)
  /\ forall x, In x (fold_left set_add l acc) <-> In x acc \/ In x l.
Proof.
  revert acc. induction l as [|v l IH]; intros acc Hprim Hnd; simpl.
  - split; [assumption | tauto].
  - simpl in Hprim. apply andb_true_iff in Hprim. destruct Hprim as [Hv Hl].
    unfold set_add at 2 4.
    destruct (existsb (strict_equals v) acc) eqn:E.
    + apply (existsb_member v acc Hv) in E.
      destruct (IH acc Hl Hnd) as [Hnd' Hin]. split; [assumption|].
      intro x. rewrite Hin. split; [tauto|].
      intros [H|[H|H]]; subst; auto.
    + assert (Hnot : ~ In v acc).
      { intro H. apply (existsb_member v acc Hv) in H. congruence. }
      assert (Hnd' : NoDup (acc ++ [v])).
      { apply NoDup_app; [assumption | repeat constructor; simpl; tauto |].
        intros x Hx [Hy|[]]. subst. contradiction. }
      destruct (IH (acc ++ [v])%list Hl Hnd') as [Hnd'' Hin].
      split; [assumption|].
      intro x. rewrite Hin, in_app_iff. simpl. tauto.
Qed.

Lemma new_Set_distinct (l ds : list value) :
  forallb primitive l = true -> NoDup ds ->
  (forall x, In x ds <-> In x l) ->
  length (new_Set l) = length ds.
Proof.
  intros Hprim Hnd Hsame. unfold new_Set.
  destruct (fold_set_add_primitives l [] Hprim (NoDup_nil _)) as [Hnd' Hin].
  apply Permutation_length, NoDup_Permutation; try assumption.
  intro x. rewrite Hin, Hsame. simpl. tauto.
Qed.

End JsFacts.

(** ** The output path *)

(** C10: the final path is the folder joined with the supplied file name
    when one is given (a non-empty string), and with the default name
    ["audit-report.html"] when none is; the separator is a backslash on
    [win32] and a slash on every other platform. *)
Theorem getFinalPath_joins_folder_and_name (env : Process) (folder : string) :
  (platform env = "win32" ->
     (forall file, file <> "" ->
        getFinalPath env (VStr folder) (VStr file)
        = Ok (folder ++ "\" ++ file))
     /\ getFinalPath env (VStr folder) VUndefined
        = Ok (folder ++ "\" ++ "audit-report.html"))
  /\ (platform env <> "win32" ->
     (forall file, file <> "" ->
        getFinalPath env (VStr folder) (VStr file)
        = Ok (folder ++ "/" ++ file))
     /\ getFinalPath env (VStr folder) VUndefined
        = Ok (folder ++ "/" ++ "audit-report.html")).
Proof.
  unfold getFinalPath, join, OUTPUT_FILE_NAME.
  split; intro Hp.
  - rewrite Hp. split.
    + intros file Hfile. apply truthy_string_nonempty in Hfile.
      rewrite Hfile. reflexivity.
    + reflexivity.
  - apply String.eqb_neq in Hp. rewrite Hp. split.
    + intros file Hfile. apply truthy_string_nonempty in Hfile.
      rewrite Hfile. reflexivity.
    + reflexivity.
Qed.

Lemma getFinalPath_joins_folder_and_name_witness :
  getFinalPath Sample.linux (folderPath Sample.linux) (filePath Sample.linux)
  = Ok "out/report.html"
  /\ getFinalPath Sample.windows (folderPath Sample.windows)
       (filePath Sample.windows)
     = Ok "C:\app\audit-report.html".
Proof.
  split.
  - apply (proj1 (proj2 (getFinalPath_joins_folder_and_name Sample.linux "out")
                    ltac:(discriminate)) "report.html").
    discriminate.
  - apply (proj2 (proj1 (getFinalPath_joins_folder_and_name Sample.windows
                           "C:\app") eq_refl)).
Defined.

(** ** The aggregator *)

Lemma countVulnerabilities_cons (v : Vulnerability) (vs : list Vulnerability)
  (sev : string) :
  countVulnerabilities (v :: vs) sev
  = (if strict_equals (severity v) (VStr sev) then 1 else 0)
    + countVulnerabilities vs sev.
Proof.
  unfold countVulnerabilities. simpl.
  destruct (strict_equals (severity v) (VStr sev)); reflexivity.
Qed.

(** An entry falls in exactly one bucket when its severity is one of the
    five literals, and in none otherwise. *)
Lemma severity_sum_cons (v : Vulnerability) (vs : list Vulnerability) :
  severity_sum (v :: vs)
  = (if known_severity v then 1 else 0) + severity_sum vs.
Proof.
  unfold severity_sum. rewrite !countVulnerabilities_cons.
  assert (H : (if strict_equals (severity v) (VStr "critical") then 1 else 0)
              + (if strict_equals (severity v) (VStr "high") then 1 else 0)
              + (if strict_equals (severity v) (VStr "moderate") then 1 else 0)
              + (if strict_equals (severity v) (VStr "low") then 1 else 0)
              + (if strict_equals (severity v) (VStr "info") then 1 else 0)
              = if known_severity v then 1 else 0).
  { unfold known_severity. simpl.
    destruct (severity v) as [| |b|n|s|items|props]; simpl; try reflexivity.
    destruct (String.eqb_spec s "critical") as [->|_]; [reflexivity|].
    destruct (String.eqb_spec s "high") as [->|_]; [reflexivity|].
    destruct (String.eqb_spec s "moderate") as [->|_]; [reflexivity|].
    destruct (String.eqb_spec s "low") as [->|_]; [reflexivity|].
    destruct (String.eqb_spec s "info") as [->|_]; reflexivity. }
  lia.
Qed.

Lemma severity_sum_counts_known (vs : list Vulnerability) :
  severity_sum vs = length (filter known_severity vs).
Proof.
  induction vs as [|v vs IH]; [reflexivity|].
  rewrite severity_sum_cons, IH. simpl.
  destruct (known_severity v); reflexivity.
Qed.

Lemma has_severity_spec (level : string) (v : Vulnerability) :
  has_severity level v = true <-> severity v = VStr level.
Proof.
  unfold has_severity. destruct (severity v); try (split; discriminate).
  rewrite String.eqb_eq. split; congruence.
Qed.

Lemma countVulnerabilities_has_severity (vs : list Vulnerability)
  (level : string) :
  countVulnerabilities vs level = length (filter (has_severity level) vs).
Proof.
  unfold countVulnerabilities. apply f_equal, filter_ext.
  intro v. unfold has_severity. destruct (severity v); reflexivity.
Qed.

Lemma known_severity_spec (v : Vulnerability) :
  known_severity v = true
  <-> exists level, In level severity_levels /\ severity v = VStr level.
Proof.
  unfold known_severity. rewrite existsb_exists.
  split; intros (level & Hin & H); exists level; (split; [exact Hin|]).
  - apply has_severity_spec. unfold has_severity.
    destruct (severity v); try discriminate. exact H.
  - rewrite H. simpl. apply String.eqb_refl.
Qed.

(** C7: in every payload built, each of the five severity counts is the
    number of entries of the normalized list whose [severity] is that
    literal exactly; the five add up to at most [vulnsFound], the length of
    the list, and to exactly that when and only when every entry's
    severity is one of the five literals; their sum is the number of
    entries with a known severity, so an entry with any other severity is
    in no bucket and still in [vulnsFound]. *)
Theorem severity_counts_within_vulnsFound (env : Process) (data : value)
  (t : TemplateData) :
  templateData env data = Ok t ->
  getVulnerabilities data = Ok (vulnerabilities t)
  /\ vulnsFound t = length (vulnerabilities t)
  /\ criticalVulns t
     = length (filter (has_severity "critical") (vulnerabilities t))
  /\ highVulns t = length (filter (has_severity "high") (vulnerabilities t))
  /\ moderateVulns t
     = length (filter (has_severity "moderate") (vulnerabilities t))
  /\ lowVulns t = length (filter (has_severity "low") (vulnerabilities t))
  /\ infoVulns t = length (filter (has_severity "info") (vulnerabilities t))
  /\ criticalVulns t + highVulns t + moderateVulns t + lowVulns t
     + infoVulns t <= vulnsFound t
  /\ (criticalVulns t + highVulns t + moderateVulns t + lowVulns t
      + infoVulns t = vulnsFound t
      <-> forallb known_severity (vulnerabilities t) = true)
  /\ criticalVulns t + highVulns t + moderateVulns t + lowVulns t
     + infoVulns t = length (filter known_severity (vulnerabilities t)).
Proof.
  unfold templateData. intro H.
  destruct (getVulnerabilities data) as [vs|] eqn:Hvs; simpl in H;
    [|discriminate].
  injection H as <-. simpl. split; [reflexivity|]. split; [reflexivity|].
  repeat (split; [apply countVulnerabilities_has_severity|]).
  change (countVulnerabilities vs "critical" + countVulnerabilities vs "high"
          + countVulnerabilities vs "moderate" + countVulnerabilities vs "low"
          + countVulnerabilities vs "info") with (severity_sum vs).
  rewrite severity_sum_counts_known. split; [|split].
  - apply filter_length_le.
  - apply filter_length_all.
  - reflexivity.
Qed.

Lemma severity_counts_within_vulnsFound_witness :
  exists t,
    templateData Sample.linux
      (legacy_document
         [("1", Sample.advisory_foo); ("2", Sample.advisory_xss);
          ("3", VObj [("title", VStr "Odd"); ("name", VStr "odd");
                      ("severity", VStr "High")])])
    = Ok t
    /\ vulnsFound t = 3
    /\ criticalVulns t + highVulns t + moderateVulns t + lowVulns t
       + infoVulns t = length (filter known_severity (vulnerabilities t))
    /\ criticalVulns t + highVulns t + moderateVulns t + lowVulns t
       + infoVulns t <= vulnsFound t.
Proof.
  eexists. split; [reflexivity|]. split; [reflexivity|].
  pose proof (severity_counts_within_vulnsFound Sample.linux
                (legacy_document
                   [("1", Sample.advisory_foo); ("2", Sample.advisory_xss);
                    ("3", VObj [("title", VStr "Odd"); ("name", VStr "odd");
                                ("severity", VStr "High")])])
                _ eq_refl)
    as (_ & _ & _ & _ & _ & _ & _ & Hle & _ & Hsum).
  split; [exact Hsum | exact Hle].
Defined.

(** The comparison is exact: another letter case is another value. *)
Example count_is_case_sensitive :
  countVulnerabilities [Sample.left_pad "High"; Sample.left_pad "high"] "high" = 1
  /\ severity_sum [Sample.left_pad "High"; Sample.left_pad "high"] = 1.
Proof. split; reflexivity. Qed.

(** C6: in every payload built, [vulnsFound] is the length of the
    normalized list, [vulnerableDependencies] never exceeds it, and
    [vulnerableDependencies] is the number of distinct [package] values of
    the list: the length of any duplicate-free enumeration of them, which
    over package names (strings) is the number of distinct names under
    exact string equality. *)
Theorem vulnerableDependencies_counts_distinct_packages (env : Process)
  (data : value) (t : TemplateData) :
  templateData env data = Ok t ->
  getVulnerabilities data = Ok (vulnerabilities t)
  /\ vulnsFound t = length (vulnerabilities t)
  /\ vulnerableDependencies t <= vulnsFound t
  /\ (forall names,
        map package (vulnerabilities t) = map VStr names ->
        vulnerableDependencies t = length (nodup string_dec names))
  /\ (forall ds,
        forallb primitive (map package (vulnerabilities t)) = true ->
        NoDup ds ->
        (forall x, In x ds <-> In x (map package (vulnerabilities t))) ->
        vulnerableDependencies t = length ds).
Proof.
  unfold templateData. intro H.
  destruct (getVulnerabilities data) as [vs|] eqn:Hvs; simpl in H;
    [|discriminate].
  injection H as <-. simpl. split; [reflexivity|]. split; [reflexivity|]. split; [|split].
  - unfold distinctPackages, new_Set.
    pose proof (fold_set_add_length (map package vs) []) as Hle.
    rewrite length_map in Hle. simpl in Hle. exact Hle.
  - intros names Hnames. unfold distinctPackages. rewrite Hnames.
    apply new_Set_strings.
  - intros ds Hprim Hnd Hsame. unfold distinctPackages.
    now apply new_Set_distinct.
Qed.

Lemma vulnerableDependencies_counts_distinct_packages_witness :
  exists t,
    templateData Sample.linux
      (legacy_document
         [("1", VObj [("title", VStr "Regex DoS"); ("name", VStr "left-pad");
                      ("severity", VStr "high")]);
          ("2", VObj [("title", VStr "Regex DoS"); ("name", VStr "left-pad");
                      ("severity", VStr "low")]);
          ("3", VObj [("title", VStr "Regex DoS"); ("name", VStr "Left-Pad");
                      ("severity", VStr "low")])])
    = Ok t
    /\ vulnsFound t = 3
    /\ vulnerableDependencies t
       = length (nodup string_dec ["left-pad"; "left-pad"; "Left-Pad"])
    /\ vulnerableDependencies t <= vulnsFound t.
Proof.
  eexists. split; [reflexivity|]. split; [reflexivity|].
  pose proof (vulnerableDependencies_counts_distinct_packages Sample.linux
                (legacy_document
                   [("1", VObj [("title", VStr "Regex DoS");
                                ("name", VStr "left-pad");
                                ("severity", VStr "high")]);
                    ("2", VObj [("title", VStr "Regex DoS");
                                ("name", VStr "left-pad");
                                ("severity", VStr "low")]);
                    ("3", VObj [("title", VStr "Regex DoS");
                                ("name", VStr "Left-Pad");
                                ("severity", VStr "low")])])
                _ eq_refl)
    as (_ & _ & Hle & Hnames & _).
  split; [|exact Hle].
  apply (Hnames ["left-pad"; "left-pad"; "Left-Pad"]). reflexivity.
Defined.

(** Names that differ in letter case are different packages. *)
Example packages_are_case_sensitive :
  distinctPackages
    [{| link := VUndefined; name := VStr "A"; package := VStr "Left-Pad";
        severity := VStr "low"; cwes := "" |};
     Sample.left_pad "low"] = 2.
Proof. reflexivity. Qed.

(** Scenario D of the specification. *)
Example same_package_twice :
  distinctPackages [Sample.left_pad "high"; Sample.left_pad "low"] = 1
  /\ length [Sample.left_pad "high"; Sample.left_pad "low"] = 2.
Proof. split; reflexivity. Qed.

(** ** The schema normalizer *)

Section Normalizer.

Lemma via_of_iterable (entry : value) :
  has_iterable_via entry = true ->
  exists via, get entry "via" = Ok via /\ spread via = Ok (via_elements entry).
Proof.
  unfold has_iterable_via, via_elements. intro H.
  exists (prop entry "via"). split.
  - destruct entry; try discriminate; reflexivity.
  - destruct entry; try discriminate;
      destruct (prop _ "via"); try discriminate; reflexivity.
Qed.

Lemma via_not_iterable (entry : value) :
  has_iterable_via entry = false ->
  (via <- get entry "via" ;; spread via) = Throw TypeError.
Proof.
  unfold has_iterable_via. intro H.
  destruct entry; try reflexivity; simpl;
    destruct (prop _ "via"); try discriminate; reflexivity.
Qed.

Lemma forallb_false_exists {A : Type} (f : A -> bool) (l : list A) :
  forallb f l = false -> exists x, In x l /\ f x = false.
Proof.
  induction l as [|x l IH]; simpl; [discriminate|].
  destruct (f x) eqn:E; simpl; intro H.
  - destruct (IH H) as (y & Hy & Hf). exists y. auto.
  - exists x. auto.
Qed.

Variable vulns : value.
Hypothesis vulns_truthy : truthy vulns = true.

(** The loop of lines 107-109 over package entries that all carry an
    iterable [via]. *)
Lemma modern_loop_collects (keys : list string) (acc : list value) :
  (forall k, In k keys -> has_iterable_via (prop vulns k) = true) ->
  for_each keys
    (fun pkg acc =>
       entry <- get vulns pkg ;;
       via <- get entry "via" ;;
       items <- spread via ;;
       Ok (acc ++ items)%list)
    acc
  = Ok (acc ++ flat_map (fun k => via_elements (prop vulns k)) keys)%list.
Proof.
  revert acc. induction keys as [|k keys IH]; intros acc Hall; simpl.
  - now rewrite app_nil_r.
  - rewrite (get_of_truthy vulns k vulns_truthy). simpl.
    destruct (via_of_iterable (prop vulns k)) as (via & Hget & Hspread).
    { apply Hall. now left. }
    rewrite Hget. simpl. rewrite Hspread. simpl.
    rewrite IH by (intros k' Hk'; apply Hall; now right).
    now rewrite app_assoc.
Qed.

(** The same loop when some package entry does not. *)
Lemma modern_loop_throws (keys : list string) (acc : list value) :
  (exists k, In k keys /\ has_iterable_via (prop vulns k) = false) ->
  for_each keys
    (fun pkg acc =>
       entry <- get vulns pkg ;;
       via <- get entry "via" ;;
       items <- spread via ;;
       Ok (acc ++ items)%list)
    acc
  = Throw TypeError.
Proof.
  revert acc. induction keys as [|k keys IH]; intros acc (bad & Hin & Hbad).
  - destruct Hin.
  - simpl. rewrite (get_of_truthy vulns k vulns_truthy). simpl.
    destruct (has_iterable_via (prop vulns k)) eqn:E.
    + destruct (via_of_iterable _ E) as (via & Hget & Hspread).
      rewrite Hget. simpl. rewrite Hspread. simpl.
      apply IH. exists bad. split; [|assumption].
      destruct Hin as [->|Hin]; [congruence | assumption].
    + pose proof (via_not_iterable _ E) as Hthrow.
      destruct (get (prop vulns k) "via") as [via|e]; simpl in *.
      * now rewrite Hthrow.
      * destruct e. reflexivity.
Qed.

(** The loop of lines 111-113. *)
Lemma legacy_loop_collects (keys : list string) (acc : list value) :
  for_each keys
    (fun vuln acc => v <- get vulns vuln ;; Ok (acc ++ [v])%list)
    acc
  = Ok (acc ++ map (prop vulns) keys)%list.
Proof.
  revert acc. induction keys as [|k keys IH]; intro acc; simpl.
  - now rewrite app_nil_r.
  - rewrite (get_of_truthy vulns k vulns_truthy). simpl.
    rewrite IH. now rewrite <- app_assoc.
Qed.

End Normalizer.

(** Over an object, whose keys are distinct, visiting the keys and
    reading each one visits the values in order. *)
Lemma values_in_key_order (v : value) :
  NoDup (for_in v) -> map (prop v) (for_in v) = map snd (own_props v).
Proof.
  unfold for_in, prop. generalize (own_props v) as props.
  induction props as [|[k x] rest IH]; simpl; intro Hnd; [reflexivity|].
  inversion Hnd as [|? ? Hnotin Hrest]; subst.
  rewrite String.eqb_refl. f_equal.
  rewrite <- (IH Hrest). apply map_ext_in.
  intros k' Hk'.
  destruct (String.eqb_spec k' k) as [->|_]; [contradiction | reflexivity].
Qed.

(** C5: a parsed document (any value but [null]) with neither key raises
    no error; the normalized list is empty and [vulnsFound] is 0. *)
Theorem no_schema_key_gives_empty_report (env : Process) (data : value) :
  data <> VNull -> data <> VUndefined ->
  has_key data "vulnerabilities" = false ->
  has_key data "advisories" = false ->
  getVulnerabilities data = Ok []
  /\ exists t, templateData env data = Ok t
               /\ vulnerabilities t = [] /\ vulnsFound t = 0.
Proof.
  intros Hnull Hundef Hv Ha.
  assert (H : getVulnerabilities data = Ok []).
  { unfold getVulnerabilities, allVulns.
    rewrite !(get_of_defined data _ Hnull Hundef).
    rewrite (prop_without_key _ _ Hv), (prop_without_key _ _ Ha).
    reflexivity. }
  split; [exact H|].
  unfold templateData. rewrite H. simpl.
  eexists. split; [reflexivity|]. split; reflexivity.
Qed.

Lemma no_schema_key_gives_empty_report_witness :
  getVulnerabilities Sample.empty_doc = Ok []
  /\ exists t, templateData Sample.linux Sample.empty_doc = Ok t
               /\ vulnerabilities t = [] /\ vulnsFound t = 0.
Proof.
  apply (no_schema_key_gives_empty_report Sample.linux Sample.empty_doc);
    [discriminate | discriminate | reflexivity | reflexivity].
Defined.

(** C4, as stated, fails: with both keys present and [vulnerabilities]
    holding [null], line 106 is false and the advisories are read. *)
Lemma present_but_falsy_vulnerabilities_reads_advisories :
  has_key Sample.null_vulnerabilities_doc "vulnerabilities" = true
  /\ has_key Sample.null_vulnerabilities_doc "advisories" = true
  /\ spec_allVulns Sample.null_vulnerabilities_doc = []
  /\ allVulns Sample.null_vulnerabilities_doc = Ok [Sample.advisory_foo]
  /\ allVulns Sample.null_vulnerabilities_doc
     <> Ok (spec_allVulns Sample.null_vulnerabilities_doc).
Proof. repeat split; try reflexivity. discriminate. Qed.

(** C4, amended: the branch is chosen by the truthiness of the value under
    each key.  With a truthy [vulnerabilities] whose package entries all
    carry an iterable [via], the normalizer collects the elements of each
    package's [via] in key order, and the result is the same whatever else
    the document holds, [advisories] included; otherwise, with a truthy
    [advisories], it collects the value under every key of that mapping;
    otherwise nothing. *)
Theorem allVulns_takes_one_branch (data : value) :
  data <> VNull -> data <> VUndefined ->
  (truthy (prop data "vulnerabilities") = true ->
     ((forall pkg, In pkg (for_in (prop data "vulnerabilities")) ->
         has_iterable_via (prop (prop data "vulnerabilities") pkg) = true) ->
      allVulns data
      = Ok (flat_map
              (fun pkg => via_elements (prop (prop data "vulnerabilities") pkg))
              (for_in (prop data "vulnerabilities"))))
     /\ (forall other, other <> VNull -> other <> VUndefined ->
           prop other "vulnerabilities" = prop data "vulnerabilities" ->
           allVulns other = allVulns data))
  /\ (truthy (prop data "vulnerabilities") = false ->
      truthy (prop data "advisories") = true ->
      allVulns data
      = Ok (map (prop (prop data "advisories"))
              (for_in (prop data "advisories"))))
  /\ (truthy (prop data "vulnerabilities") = false ->
      truthy (prop data "advisories") = false ->
      allVulns data = Ok []).
Proof.
  intros Hnull Hundef. unfold allVulns.
  rewrite !(get_of_defined data _ Hnull Hundef). simpl.
  split; [|split].
  - intro Ht. rewrite Ht. split.
    + intro Hall. now rewrite modern_loop_collects.
    + intros other Hn Hu Hsame.
      rewrite !(get_of_defined other _ Hn Hu). simpl.
      rewrite Hsame, Ht. reflexivity.
  - intros Hf Ht. rewrite Hf, Ht. now rewrite legacy_loop_collects.
  - intros Hf Hf'. rewrite Hf, Hf'. reflexivity.
Qed.

Lemma allVulns_takes_one_branch_witness :
  allVulns Sample.modern_doc = Ok [Sample.advisory_xss; VStr "marked"]
  /\ allVulns Sample.legacy_doc = Ok [Sample.advisory_foo]
  /\ allVulns Sample.empty_doc = Ok [].
Proof.
  split; [|split].
  - apply (proj1 (proj1 (allVulns_takes_one_branch Sample.modern_doc
                           ltac:(discriminate) ltac:(discriminate))
                    eq_refl)).
    intros pkg [<-|[<-|[]]]; reflexivity.
  - apply (proj1 (proj2 (allVulns_takes_one_branch Sample.legacy_doc
                           ltac:(discriminate) ltac:(discriminate)))
             eq_refl eq_refl).
  - apply (proj2 (proj2 (allVulns_takes_one_branch Sample.empty_doc
                           ltac:(discriminate) ltac:(discriminate)))
             eq_refl eq_refl).
Defined.

(** C9: in the modern branch, a package entry whose [via] is absent or
    not iterable makes the normalizer throw instead of skipping the
    package; the raw sequence is produced exactly when every package
    entry carries an iterable [via]. *)
Theorem package_without_via_throws (data vulns : value) :
  get data "vulnerabilities" = Ok vulns ->
  truthy vulns = true ->
  ((exists pkg, In pkg (for_in vulns)
                /\ has_iterable_via (prop vulns pkg) = false) ->
   allVulns data = Throw TypeError
   /\ getVulnerabilities data = Throw TypeError)
  /\ ((exists raw, allVulns data = Ok raw) <->
      (forall pkg, In pkg (for_in vulns) ->
                   has_iterable_via (prop vulns pkg) = true)).
Proof.
  intros Hget Ht.
  assert (Hbad : (exists pkg, In pkg (for_in vulns)
                   /\ has_iterable_via (prop vulns pkg) = false) ->
                 allVulns data = Throw TypeError).
  { intro H. unfold allVulns. rewrite Hget. simpl. rewrite Ht.
    now apply modern_loop_throws. }
  split; [|split].
  - intro H. split; [now apply Hbad|].
    unfold getVulnerabilities. now rewrite (Hbad H).
  - intros [raw Hraw].
    destruct (forallb (fun pkg => has_iterable_via (prop vulns pkg))
                (for_in vulns)) eqn:E.
    + intros pkg Hin. rewrite forallb_forall in E. now apply E.
    + apply forallb_false_exists in E. apply Hbad in E. congruence.
  - intro Hall. eexists. unfold allVulns. rewrite Hget. simpl. rewrite Ht.
    now apply modern_loop_collects.
Qed.

Lemma package_without_via_throws_witness :
  allVulns Sample.missing_via_doc = Throw TypeError
  /\ getVulnerabilities Sample.missing_via_doc = Throw TypeError.
Proof.
  apply (proj1 (package_without_via_throws Sample.missing_via_doc
                  (prop Sample.missing_via_doc "vulnerabilities")
                  eq_refl eq_refl)).
  exists "docs". split; [right; left; reflexivity | reflexivity].
Defined.

(** ** The vulnerability mapper *)

Section Mapper.

Lemma index_key_starts_with_digit (i : nat) :
  starts_with_digit (index_key i) = true.
Proof. unfold index_key. destruct (Nat.to_uint i); reflexivity. Qed.

(** An array or a string has index properties only. *)
Lemma assoc_indexed_name (k : string) (l : list value) :
  starts_with_digit k = false -> assoc k (indexed l) = None.
Proof.
  intro Hk. unfold indexed. generalize 0 as start.
  induction l as [|x l IH]; intro start; simpl; [reflexivity|].
  destruct (String.eqb_spec k (index_key start)) as [->|_].
  - rewrite index_key_starts_with_digit in Hk. discriminate.
  - apply IH.
Qed.

Lemma title_of_untitled (e : value) :
  is_titled_object e = false -> truthy (prop e "title") = false.
Proof.
  destruct e; simpl; intro H; try reflexivity; try exact H;
    unfold prop; simpl; now rewrite assoc_indexed_name.
Qed.

Lemma map_result_app {A B : Type} (f : A -> result B) (l1 l2 : list A)
  (r1 r2 : list B) :
  map_result f l1 = Ok r1 -> map_result f l2 = Ok r2 ->
  map_result f (l1 ++ l2) = Ok (r1 ++ r2)%list.
Proof.
  revert r1. induction l1 as [|x l1 IH]; simpl; intros r1 H1 H2.
  - injection H1 as <-. exact H2.
  - destruct (f x) as [y|e]; simpl in *; [|discriminate].
    destruct (map_result f l1) as [ys|e]; simpl in *; [|discriminate].
    injection H1 as <-. now rewrite (IH ys eq_refl H2).
Qed.

Lemma join_of_strings (items : list value) :
  forallb is_string items = true ->
  map_result join_element items = Ok (identifiers (VArr items)).
Proof.
  induction items as [|x items IH]; simpl; intro H; [reflexivity|].
  apply andb_true_iff in H. destruct H as [Hx Hrest].
  destruct x; try discriminate. simpl.
  rewrite (IH Hrest). reflexivity.
Qed.

(** Line 131 on well-typed fields.  With [cves] present the text is the
    identifiers of both fields joined; with [cves] absent, [concat]
    appends [undefined] as one more element, which [join] prints as the
    empty string after one more separator. *)
Lemma cwes_of_fields (cwe cves : value) :
  absent_or_strings cwe = true -> absent_or_strings cves = true ->
  exists all,
    method_concat (if truthy cwe then cwe else VArr []) cves = Ok all
    /\ method_join all ", "
       = Ok (String.concat ", "
               (identifiers cwe ++ match cves with
                                   | VArr _ => identifiers cves
                                   | _ => [""]
                                   end)%list).
Proof.
  intros Hcwe Hcves.
  assert (Hbase : exists items,
             (if truthy cwe then cwe else VArr []) = VArr items
             /\ forallb is_string items = true
             /\ identifiers cwe = identifiers (VArr items)).
  { destruct cwe; try discriminate.
    - exists []. repeat split.
    - exists items. repeat split. exact Hcwe. }
  destruct Hbase as (items & -> & Hitems & ->).
  destruct cves; try discriminate; simpl method_concat;
    eexists; (split; [reflexivity|]); unfold method_join, array_join.
  - rewrite (map_result_app join_element items [VUndefined] _ [""]
               (join_of_strings _ Hitems) eq_refl).
    reflexivity.
  - rewrite (map_result_app _ _ _ _ _ (join_of_strings _ Hitems)
               (join_of_strings _ Hcves)).
    reflexivity.
Qed.

Lemma processVulnerability_untitled (e : value) :
  raw_entry_ok e = true -> is_titled_object e = false ->
  processVulnerability e = Ok None.
Proof.
  intros Hok Hno. unfold processVulnerability.
  assert (Hget : forall k, get e k = Ok (prop e k)).
  { intro k. destruct e; try discriminate; reflexivity. }
  rewrite Hget. simpl. now rewrite (title_of_untitled e Hno).
Qed.

Lemma processVulnerability_titled (e : value) :
  raw_entry_ok e = true -> is_titled_object e = true ->
  exists v, processVulnerability e = Ok (Some v)
            /\ name v = prop e "title"
            /\ link v = prop e "url"
            /\ severity v = prop e "severity"
            /\ package v = (if truthy (prop e "name") then prop e "name"
                            else prop e "module_name").
Proof.
  intros Hok Hyes. unfold processVulnerability.
  assert (Hget : forall k, get e k = Ok (prop e k)).
  { intro k. destruct e; try discriminate; reflexivity. }
  assert (Htitle : truthy (prop e "title") = true).
  { destruct e; try discriminate. exact Hyes. }
  assert (Hfields : absent_or_strings (prop e "cwe") = true
                    /\ absent_or_strings (prop e "cves") = true).
  { unfold raw_entry_ok in Hok. rewrite Htitle in Hok. simpl in Hok.
    apply andb_true_iff. destruct e; try discriminate; exact Hok. }
  destruct Hfields as [Hcwe Hcves].
  destruct (cwes_of_fields _ _ Hcwe Hcves) as (all & Hconcat & Hjoin).
  rewrite !Hget. simpl. rewrite Htitle.
  destruct (truthy (prop e "name")); simpl;
    rewrite ?Hget; simpl; rewrite Hconcat; simpl; rewrite Hjoin; simpl;
    eexists; (split; [reflexivity|]); repeat split.
Qed.

Lemma map_processVulnerability (raw : list value) :
  forallb raw_entry_ok raw = true ->
  exists mapped, map_result processVulnerability raw = Ok mapped
                 /\ Forall2 mapped_from raw mapped.
Proof.
  induction raw as [|e raw IH]; simpl; intro H.
  - exists []. split; [reflexivity | constructor].
  - apply andb_true_iff in H. destruct H as [He Hraw].
    destruct (IH Hraw) as (mapped & Hmap & Hrel). rewrite Hmap.
    destruct (is_titled_object e) eqn:E.
    + destruct (processVulnerability_titled e He E) as (v & Hv & Hname & _).
      rewrite Hv. simpl. exists (Some v :: mapped).
      split; [reflexivity|]. constructor; [|assumption].
      split; [split; [intros _; exact E | discriminate]|].
      intros v' Hv'. injection Hv' as <-. exact Hname.
    + rewrite (processVulnerability_untitled e He E). simpl.
      exists (None :: mapped).
      split; [reflexivity|]. constructor; [|assumption].
      split; [split; congruence|].
      discriminate.
Qed.

Lemma keep_defined_names (raw : list value) (mapped : list (option Vulnerability)) :
  Forall2 mapped_from raw mapped ->
  map name (keep_defined mapped)
  = map (fun e => prop e "title") (filter is_titled_object raw).
Proof.
  induction 1 as [|e r raw mapped [Hiff Hname] _ IH]; [reflexivity|].
  destruct r as [v|]; simpl.
  - rewrite (proj1 Hiff) by discriminate. simpl.
    now rewrite (Hname v eq_refl), IH.
  - destruct (is_titled_object e) eqn:E; [|exact IH].
    exfalso. now apply (proj2 Hiff).
Qed.

Lemma is_titled_object_title (e : value) :
  is_titled_object e = truthy (prop e "title").
Proof.
  destruct (is_titled_object e) eqn:E.
  - destruct e; try discriminate. symmetry. exact E.
  - symmetry. now apply title_of_untitled.
Qed.

(** Whatever the entry, a call that returns relates it to its result. *)
Lemma processVulnerability_result (e : value) (r : option Vulnerability) :
  processVulnerability e = Ok r -> mapped_from e r.
Proof.
  unfold processVulnerability, mapped_from. intro H.
  assert (Hget : forall k, get e k = Ok (prop e k)).
  { intro k. destruct e; try reflexivity; simpl in H; discriminate. }
  rewrite !Hget in H. simpl in H. rewrite is_titled_object_title.
  destruct (truthy (prop e "title")).
  - destruct (truthy (prop e "name")); simpl in H;
      rewrite ?Hget in H; simpl in H;
      destruct (method_concat _ _) as [all|]; simpl in H; try discriminate;
      destruct (method_join all ", "); simpl in H; try discriminate;
      injection H as <-;
      (split; [split; [reflexivity | discriminate]|]);
      intros v Hv; injection Hv as <-; reflexivity.
  - injection H as <-. split; [split; congruence | discriminate].
Qed.

Lemma map_result_Forall2 {A B : Type} (f : A -> result B) (R : A -> B -> Prop)
  (l : list A) (r : list B) :
  (forall x y, f x = Ok y -> R x y) ->
  map_result f l = Ok r -> Forall2 R l r.
Proof.
  intro Hf. revert r. induction l as [|x l IH]; simpl; intros r H.
  - injection H as <-. constructor.
  - destruct (f x) as [y|] eqn:Hx; simpl in H; [|discriminate].
    destruct (map_result f l) as [ys|]; simpl in H; [|discriminate].
    injection H as <-. constructor; auto.
Qed.

End Mapper.

(** C3: a raw entry yields a record exactly when it is an object with a
    non-empty (truthy) [title]; strings and other non-objects, and objects
    without such a title, yield nothing.  So the final list, whenever the
    mapper returns one, holds one record per titled object, in order, each
    named by that title: every [name] is non-empty and no placeholder
    remains.  Over raw entries of the data model the mapper does return. *)
Theorem mapper_keeps_exactly_titled_objects (data : value) (raw : list value) :
  allVulns data = Ok raw ->
  (forall out,
     getVulnerabilities data = Ok out ->
     (exists mapped,
        map_result processVulnerability raw = Ok mapped
        /\ out = keep_defined mapped
        /\ Forall2 mapped_from raw mapped)
     /\ length out = length (filter is_titled_object raw)
     /\ map name out
        = map (fun e => prop e "title") (filter is_titled_object raw)
     /\ Forall (fun v => truthy (name v) = true) out)
  /\ (forallb raw_entry_ok raw = true ->
      exists out, getVulnerabilities data = Ok out).
Proof.
  intro Hraw. unfold getVulnerabilities. rewrite Hraw. simpl. split.
  - intros out Hout.
    destruct (map_result processVulnerability raw) as [mapped|] eqn:Hmap;
      simpl in Hout; [|discriminate].
    injection Hout as <-.
    pose proof (map_result_Forall2 _ _ _ _ processVulnerability_result Hmap)
      as Hrel.
    pose proof (keep_defined_names raw mapped Hrel) as Hnames.
    split; [|split; [|split]].
    + exists mapped. auto.
    + rewrite <- (length_map name), Hnames. now rewrite length_map.
    + exact Hnames.
    + apply Forall_forall. intros v Hv.
      apply (in_map name) in Hv. rewrite Hnames in Hv.
      apply in_map_iff in Hv. destruct Hv as (e & <- & He).
      apply filter_In in He. destruct He as [_ He].
      now rewrite <- is_titled_object_title.
  - intro Hok.
    destruct (map_processVulnerability raw Hok) as (mapped & Hmap & _).
    rewrite Hmap. simpl. eexists. reflexivity.
Qed.

Lemma mapper_keeps_exactly_titled_objects_witness :
  map name
    match getVulnerabilities Sample.modern_doc with
    | Ok out => out
    | Throw _ => []
    end
  = [VStr "Cross-site scripting"]
  /\ exists out, getVulnerabilities Sample.modern_doc = Ok out.
Proof.
  destruct (mapper_keeps_exactly_titled_objects Sample.modern_doc
              [Sample.advisory_xss; VStr "marked"] eq_refl)
    as [Hshape Htotal].
  split.
  - exact (proj1 (proj2 (proj2 (Hshape _ eq_refl)))).
  - exact (Htotal eq_refl).
Defined.

(** Line 131 on an advisory of the data model: with [cves] present the
    field is the text the specification describes. *)
Lemma cwes_with_cves_present (e : value) (v : Vulnerability) (ids : list value) :
  processVulnerability e = Ok (Some v) ->
  absent_or_strings (prop e "cwe") = true ->
  prop e "cves" = VArr ids -> forallb is_string ids = true ->
  cwes v = spec_cwes e.
Proof.
  intros Hv Hcwe Hids Hstr.
  assert (Hcves : absent_or_strings (prop e "cves") = true)
    by (rewrite Hids; exact Hstr).
  destruct (cwes_of_fields _ _ Hcwe Hcves) as (all & Hconcat & Hjoin).
  unfold processVulnerability in Hv.
  assert (Hget : forall k, get e k = Ok (prop e k)).
  { intro k. destruct e; try discriminate; reflexivity. }
  rewrite !Hget in Hv. simpl in Hv.
  destruct (truthy (prop e "title")); [|discriminate].
  destruct (truthy (prop e "name")); simpl in Hv;
    rewrite ?Hget in Hv; simpl in Hv;
    rewrite Hconcat in Hv; simpl in Hv; rewrite Hjoin in Hv; simpl in Hv;
    injection Hv as <-; simpl; unfold spec_cwes; now rewrite Hids.
Qed.

(** C1 fails on the code when [cves] is absent: [concat(undefined)]
    appends [undefined] as an element, and [join] then writes a separator
    after the last CWE identifier. *)
Theorem cwes_without_cves_ends_with_separator :
  prop Sample.advisory_xss "cves" = VUndefined
  /\ spec_cwes Sample.advisory_xss = "CWE-79"
  /\ exists v, processVulnerability Sample.advisory_xss = Ok (Some v)
               /\ cwes v = "CWE-79, "
               /\ cwes v <> spec_cwes Sample.advisory_xss.
Proof.
  split; [reflexivity|]. split; [reflexivity|].
  eexists. split; [reflexivity|]. simpl.
  split; [reflexivity | discriminate].
Qed.

(** Scenarios A and C of the specification hold on the code. *)
Example scenario_A :
  exists t, templateData Sample.linux Sample.legacy_doc = Ok t
            /\ map cwes (vulnerabilities t) = ["CWE-1, CVE-2020-1"]
            /\ map package (vulnerabilities t) = [VStr "bar"]
            /\ vulnsFound t = 1 /\ highVulns t = 1
            /\ criticalVulns t + moderateVulns t + lowVulns t + infoVulns t = 0.
Proof. eexists. split; [reflexivity|]. repeat split. Qed.

Example scenario_C :
  exists v, processVulnerability
              (VObj [("title", VStr "T1"); ("name", VStr "pkgA");
                     ("severity", VStr "critical")])
            = Ok (Some v)
            /\ cwes v = "".
Proof. eexists. split; reflexivity. Qed.

(** The property names of the payload, whatever the input. *)
Lemma payload_property_names (t : TemplateData) :
  for_in (payload_object t)
  = ["vulnsFound"; "vulnerableDependencies"; "currentDate"; "criticalVulns";
     "highVulns"; "moderateVulns"; "lowVulns"; "infoVulns"; "vulnerabilities"].
Proof. reflexivity. Qed.

(** C2 fails on the code: run as the README shows, with a title on the
    command line, the payload has the list, the counts and the timestamp,
    and neither a [title] property nor the title text in any property. *)
Theorem payload_carries_no_title :
  In "Security Report" (argv Sample.titled)
  /\ exists t, templateData Sample.titled Sample.modern_doc = Ok t
               /\ vulnsFound t = 1 /\ moderateVulns t = 1
               /\ currentDate t = "02 of November, 2026 - 09:05:30"
               /\ has_key (payload_object t) "title" = false
               /\ forallb (fun p => negb (strict_equals (snd p)
                                            (VStr "Security Report")))
                    (own_props (payload_object t)) = true.
Proof.
  split; [simpl; tauto|].
  eexists. split; [reflexivity|]. repeat split.
Qed.

(** ** The timestamp *)

Section Timestamp.

(** Checked on each of the hundred numbers. *)
Lemma padding_table :
  forallb
    (fun n =>
       Nat.eqb (String.length (checkNumLength (str n))) 2
       && match read_number (checkNumLength (str n)) with
          | Some m => Nat.eqb m n
          | None => false
          end
       && negb (occurs " " (checkNumLength (str n)))
       && negb (occurs ":" (checkNumLength (str n))))
    (seq 0 100) = true.
Proof. vm_compute. reflexivity. Qed.

Lemma padding_facts (n : nat) :
  n < 100 ->
  String.length (checkNumLength (str n)) = 2
  /\ read_number (checkNumLength (str n)) = Some n
  /\ occurs " " (checkNumLength (str n)) = false
  /\ occurs ":" (checkNumLength (str n)) = false.
Proof.
  intro Hn. pose proof padding_table as H.
  rewrite forallb_forall in H.
  specialize (H n ltac:(apply in_seq; lia)).
  repeat (apply andb_true_iff in H; destruct H as [H ?]).
  apply Nat.eqb_eq in H.
  destruct (read_number (checkNumLength (str n))) as [m|]; [|discriminate].
  repeat split; try assumption.
  - f_equal. now apply Nat.eqb_eq.
  - now apply negb_true_iff.
  - now apply negb_true_iff.
Qed.

Lemma padding_injective (n m : nat) :
  n < 100 -> m < 100 ->
  checkNumLength (str n) = checkNumLength (str m) -> n = m.
Proof.
  intros Hn Hm H.
  destruct (padding_facts n Hn) as (_ & Rn & _).
  destruct (padding_facts m Hm) as (_ & Rm & _).
  rewrite H in Rn. congruence.
Qed.

(** Two texts that each end at the first [c] are equal when what they
    start are equal. *)
Lemma split_at_delimiter (c : ascii) (a b r1 r2 : string) :
  occurs c a = false -> occurs c b = false ->
  a ++ String c r1 = b ++ String c r2 -> a = b /\ r1 = r2.
Proof.
  revert b. induction a as [|x a IH]; intros [|y b]; simpl; intros Ha Hb H.
  - injection H as <-. auto.
  - injection H as -> _. rewrite Ascii.eqb_refl in Hb. discriminate.
  - injection H as <- _. rewrite Ascii.eqb_refl in Ha. discriminate.
  - injection H as -> H.
    apply orb_false_iff in Ha. apply orb_false_iff in Hb.
    destruct (IH b (proj2 Ha) (proj2 Hb) H) as [-> ->]. auto.
Qed.

Lemma digits_have_no_space (d : Decimal.uint) :
  occurs " " (NilEmpty.string_of_uint d) = false.
Proof. induction d; simpl; auto. Qed.

Lemma number_has_no_space (n : Z) : occurs " " (number_to_string n) = false.
Proof.
  unfold number_to_string.
  destruct (Z.to_int n) as [d|d]; simpl;
    destruct d; simpl; auto using digits_have_no_space.
Qed.

Lemma number_to_string_injective (n m : Z) :
  number_to_string n = number_to_string m -> n = m.
Proof.
  unfold number_to_string. intro H.
  assert (Hnonnil : forall z, Z.to_int z <> Decimal.Pos Decimal.Nil
                              /\ Z.to_int z <> Decimal.Neg Decimal.Nil).
  { intros [|p|p]; simpl; split; try discriminate;
      intro E; injection E as E;
      now apply (DecimalPos.Unsigned.to_uint_nonnil p). }
  apply DecimalZ.to_int_inj.
  apply (f_equal NilZero.int_of_string) in H.
  rewrite !NilZero.isi in H by apply Hnonnil.
  now injection H.
Qed.

Lemma month_names (m : nat) :
  m < 12 ->
  exists text, nth_error months m = Some text /\ occurs "," text = false.
Proof.
  intro Hm.
  do 12 (destruct m as [|m]; [eexists; split; reflexivity|]).
  lia.
Qed.

Lemma month_of_name (m1 m2 : nat) (text : string) :
  nth_error months m1 = Some text -> nth_error months m2 = Some text ->
  m1 = m2.
Proof.
  intros H1 H2.
  assert (Hnd : NoDup months).
  { unfold months. repeat constructor; simpl; intuition discriminate. }
  rewrite NoDup_nth_error in Hnd.
  apply Hnd; [|congruence].
  apply nth_error_Some. congruence.
Qed.

End Timestamp.

(** X1: for a number below 100, [checkNumLength(str(n))] has exactly two
    characters, and they read back as [n]. *)
Theorem padded_number_has_two_digits (n : nat) :
  n < 100 ->
  String.length (checkNumLength (str n)) = 2
  /\ read_number (checkNumLength (str n)) = Some n.
Proof.
  intro Hn. destruct (padding_facts n Hn) as (Hlen & Hread & _). auto.
Qed.

Lemma padded_number_has_two_digits_witness :
  String.length (checkNumLength (str 7)) = 2
  /\ read_number (checkNumLength (str 7)) = Some 7.
Proof. apply (padded_number_has_two_digits 7). lia. Defined.

(** X2: the timestamp tells clock readings apart: two readings in range
    that print the same text are the same reading. *)
Theorem timestamp_determines_clock (env1 env2 : Process) :
  clock_in_range (now env1) = true ->
  clock_in_range (now env2) = true ->
  getCurrentDate env1 = getCurrentDate env2 ->
  now env1 = now env2.
Proof.
  unfold clock_in_range, getCurrentDate.
  destruct (now env1) as [d1 m1 y1 h1 mi1 s1].
  destruct (now env2) as [d2 m2 y2 h2 mi2 s2]. simpl.
  intros R1 R2 H.
  repeat (apply andb_true_iff in R1; destruct R1 as [R1 ?]).
  repeat (apply andb_true_iff in R2; destruct R2 as [R2 ?]).
  repeat match goal with
         | Hlt : (_ <? _)%nat = true |- _ => apply Nat.ltb_lt in Hlt
         end.
  destruct (month_names m1) as (t1 & Ht1 & Hc1); [assumption|].
  destruct (month_names m2) as (t2 & Ht2 & Hc2); [assumption|].
  rewrite Ht1, Ht2 in H.
  apply split_at_delimiter in H; try (apply padding_facts; assumption).
  destruct H as [Hd H]. simpl in H. injection H as H.
  apply split_at_delimiter in H; try assumption.
  destruct H as [Hm H]. simpl in H. injection H as H.
  apply split_at_delimiter in H; try apply number_has_no_space.
  destruct H as [Hy H]. simpl in H. injection H as H.
  apply split_at_delimiter in H; try (apply padding_facts; assumption).
  destruct H as [Hh H].
  apply split_at_delimiter in H; try (apply padding_facts; assumption).
  destruct H as [Hmi Hs].
  apply padding_injective in Hd, Hh, Hmi, Hs; try assumption.
  apply number_to_string_injective in Hy.
  subst t2. pose proof (month_of_name _ _ _ Ht1 Ht2).
  subst. reflexivity.
Qed.

Lemma timestamp_determines_clock_witness :
  now Sample.linux = now Sample.windows.
Proof.
  apply (timestamp_determines_clock Sample.linux Sample.windows);
    reflexivity.
Defined.

(** ** The command line *)

Lemma folderPath_is_chosen_folder (env : Process) :
  folderPath env = VStr (chosen_folder env).
Proof.
  unfold folderPath, chosen_folder, arg.
  destruct (nth_error (argv env) 2) as [f|]; simpl; [|reflexivity].
  destruct (String.eqb f ""); reflexivity.
Qed.

Lemma final_path_closed_form (env : Process) :
  getFinalPath env (folderPath env) (filePath env)
  = Ok (chosen_folder env ++ separator env ++ chosen_name env).
Proof.
  rewrite folderPath_is_chosen_folder.
  unfold getFinalPath, filePath, chosen_name, separator, join, arg.
  destruct (nth_error (argv env) 3) as [n|]; simpl.
  - destruct (String.eqb n ""); simpl;
      destruct (String.eqb (platform env) "win32"); reflexivity.
  - destruct (String.eqb (platform env) "win32"); reflexivity.
Qed.

(** X3: whatever the command line, the output path is defined: it is the
    folder, one separator and the file name, where the folder is the
    third argument, or the working directory when that argument is
    missing or empty, and the name is the fourth argument, or
    ["audit-report.html"] when that one is missing or empty.  No argument
    is interpreted: a flag in either position is taken as the path. *)
Theorem final_path_of_command_line (env : Process) :
  getFinalPath env (folderPath env) (filePath env)
  = Ok (chosen_folder env ++ separator env ++ chosen_name env)
  /\ chosen_name env <> ""
  /\ (forall f, nth_error (argv env) 2 = Some f -> f <> "" ->
                chosen_folder env = f)
  /\ (nth_error (argv env) 2 = None \/ nth_error (argv env) 2 = Some "" ->
      chosen_folder env = cwd env)
  /\ (forall n, nth_error (argv env) 3 = Some n -> n <> "" ->
                chosen_name env = n)
  /\ (nth_error (argv env) 3 = None \/ nth_error (argv env) 3 = Some "" ->
      chosen_name env = "audit-report.html").
Proof.
  split; [apply final_path_closed_form|].
  unfold chosen_folder, chosen_name, OUTPUT_FILE_NAME.
  repeat split.
  - destruct (nth_error (argv env) 3) as [n|]; [|discriminate].
    destruct (String.eqb_spec n ""); [discriminate | assumption].
  - intros f -> Hf. apply String.eqb_neq in Hf. now rewrite Hf.
  - intros [->| ->]; reflexivity.
  - intros n -> Hn. apply String.eqb_neq in Hn. now rewrite Hn.
  - intros [->| ->]; reflexivity.
Qed.

Lemma final_path_of_command_line_witness :
  chosen_folder Sample.titled = "--folder"
  /\ chosen_name Sample.titled = "out"
  /\ chosen_folder Sample.windows = "C:\app"
  /\ chosen_name Sample.windows = "audit-report.html".
Proof.
  pose proof (final_path_of_command_line Sample.titled) as (_ & _ & F & _ & N & _).
  pose proof (final_path_of_command_line Sample.windows) as (_ & _ & _ & F' & _ & N').
  split; [|split; [|split]].
  - apply (F "--folder"); [reflexivity | discriminate].
  - apply (N "out"); [reflexivity | discriminate].
  - apply F'. left. reflexivity.
  - apply N'. left. reflexivity.
Defined.

(** ** More on the mapper *)

Section MapperEdges.

Lemma map_result_throws {A B : Type} (f : A -> result B) (l : list A) (x : A) :
  In x l -> f x = Throw TypeError -> map_result f l = Throw TypeError.
Proof.
  intros Hin Hx. induction l as [|y l IH]; [destruct Hin|]. simpl.
  destruct (f y) as [b|e] eqn:Hy; simpl.
  - destruct Hin as [->|Hin]; [congruence|].
    now rewrite (IH Hin).
  - destruct e. reflexivity.
Qed.

Lemma append_empty (s : string) : s ++ "" = s.
Proof. induction s as [|c s IH]; simpl; [reflexivity | now rewrite IH]. Qed.

Lemma append_associative (a b c : string) : (a ++ b) ++ c = a ++ b ++ c.
Proof. induction a as [|x a IH]; simpl; [reflexivity | now rewrite IH]. Qed.

Lemma concat_with_empty_last (sep : string) (l : list string) :
  l <> [] -> String.concat sep (l ++ [""]) = String.concat sep l ++ sep.
Proof.
  induction l as [|a l IH]; [congruence|]. intros _.
  destruct l as [|b l].
  - simpl. now rewrite append_empty.
  - change (String.concat sep ((a :: b :: l) ++ [""])%list)
      with (a ++ sep ++ String.concat sep ((b :: l) ++ [""])%list).
    rewrite IH by discriminate.
    change (String.concat sep (a :: b :: l))
      with (a ++ sep ++ String.concat sep (b :: l)).
    now rewrite !append_associative.
Qed.

(** The [cwes] field of a record built from well-typed fields. *)
Lemma cwes_of_record (e : value) (v : Vulnerability) :
  processVulnerability e = Ok (Some v) ->
  absent_or_strings (prop e "cwe") = true ->
  absent_or_strings (prop e "cves") = true ->
  cwes v = String.concat ", "
             (identifiers (prop e "cwe")
              ++ match prop e "cves" with
                 | VArr _ => identifiers (prop e "cves")
                 | _ => [""]
                 end)%list.
Proof.
  intros Hv Hcwe Hcves.
  destruct (cwes_of_fields _ _ Hcwe Hcves) as (all & Hconcat & Hjoin).
  unfold processVulnerability in Hv.
  assert (Hget : forall k, get e k = Ok (prop e k)).
  { intro k. destruct e; try discriminate; reflexivity. }
  rewrite !Hget in Hv. simpl in Hv.
  destruct (truthy (prop e "title")); [|discriminate].
  destruct (truthy (prop e "name")); simpl in Hv;
    rewrite ?Hget in Hv; simpl in Hv;
    rewrite Hconcat in Hv; simpl in Hv; rewrite Hjoin in Hv; simpl in Hv;
    injection Hv as <-; reflexivity.
Qed.

End MapperEdges.

(** X4: one raw entry on which the mapper throws aborts the whole list,
    and with it the payload: no partial report is built.  A [null] entry
    is such an entry, as line 125 reads its [title]. *)
Theorem throwing_entry_aborts_the_report (data : value) (raw : list value) :
  allVulns data = Ok raw ->
  (forall e, In e raw -> processVulnerability e = Throw TypeError ->
             getVulnerabilities data = Throw TypeError
             /\ forall env, templateData env data = Throw TypeError)
  /\ (In VNull raw ->
      getVulnerabilities data = Throw TypeError
      /\ forall env, templateData env data = Throw TypeError).
Proof.
  intro Hraw.
  assert (H : forall e, In e raw -> processVulnerability e = Throw TypeError ->
                        getVulnerabilities data = Throw TypeError
                        /\ forall env, templateData env data = Throw TypeError).
  { intros e Hin He.
    assert (Hg : getVulnerabilities data = Throw TypeError).
    { unfold getVulnerabilities. rewrite Hraw. simpl.
      now rewrite (map_result_throws _ _ e Hin He). }
    split; [exact Hg|]. intro env. unfold templateData. now rewrite Hg. }
  split; [exact H|].
  intro Hnull. apply (H VNull Hnull). reflexivity.
Qed.

Lemma throwing_entry_aborts_the_report_witness :
  getVulnerabilities
    (legacy_document [("1", Sample.advisory_foo); ("2", VNull)])
  = Throw TypeError.
Proof.
  apply (proj2 (throwing_entry_aborts_the_report
                  (legacy_document [("1", Sample.advisory_foo); ("2", VNull)])
                  [Sample.advisory_foo; VNull] eq_refl)).
  right. left. reflexivity.
Defined.

(** X5: a titled advisory whose [cwe] is truthy and not an array (a
    string such as ["CWE-471"], a number, an object) makes the mapper
    throw: only an array has both [concat] and [join]. *)
Theorem non_array_cwe_throws (e : value) :
  is_titled_object e = true ->
  truthy (prop e "cwe") = true ->
  (forall items, prop e "cwe" <> VArr items) ->
  processVulnerability e = Throw TypeError.
Proof.
  intros Htitled Hcwe Hnot. unfold processVulnerability.
  assert (Hget : forall k, get e k = Ok (prop e k)).
  { intro k. destruct e; try discriminate; reflexivity. }
  rewrite is_titled_object_title in Htitled.
  rewrite !Hget. simpl. rewrite Htitled, Hcwe.
  assert (Hconcat : method_concat (prop e "cwe") (prop e "cves")
                    = Throw TypeError
                    \/ exists s, method_concat (prop e "cwe") (prop e "cves")
                                 = Ok (VStr s)).
  { destruct (prop e "cwe") as [| |b|n|s|items|props];
      try discriminate; try (left; reflexivity).
    - simpl. destruct (to_string (prop e "cves")) as [t|x]; simpl;
        [right; eexists; reflexivity | left; destruct x; reflexivity].
    - exfalso. now apply (Hnot items). }
  destruct (truthy (prop e "name")); simpl; rewrite ?Hget; simpl;
    destruct Hconcat as [Hc|[s Hc]]; rewrite Hc; reflexivity.
Qed.

Lemma non_array_cwe_throws_witness :
  processVulnerability
    (VObj [("title", VStr "Prototype Pollution"); ("module_name", VStr "lodash");
           ("cves", VArr [VStr "CVE-2019-10744"]); ("cwe", VStr "CWE-471");
           ("severity", VStr "high")])
  = Throw TypeError.
Proof.
  apply non_array_cwe_throws;
    [reflexivity | reflexivity | discriminate].
Defined.

(** X6: for a titled advisory with well-typed [cwe] and [cves], the mapper
    returns a record whose [link] is [url] and whose [severity] is
    [severity], both verbatim, whose [name] is the title, and whose
    [package] is [name] when that is truthy and [module_name] otherwise. *)
Theorem record_fields_of_advisory (e : value) :
  is_titled_object e = true ->
  absent_or_strings (prop e "cwe") = true ->
  absent_or_strings (prop e "cves") = true ->
  exists v, processVulnerability e = Ok (Some v)
            /\ link v = prop e "url"
            /\ name v = prop e "title"
            /\ severity v = prop e "severity"
            /\ (truthy (prop e "name") = true -> package v = prop e "name")
            /\ (truthy (prop e "name") = false ->
                package v = prop e "module_name").
Proof.
  intros Htitled Hcwe Hcves.
  assert (Hok : raw_entry_ok e = true).
  { unfold raw_entry_ok. rewrite Hcwe, Hcves, orb_true_r.
    destruct e; try discriminate; reflexivity. }
  destruct (processVulnerability_titled e Hok Htitled)
    as (v & Hv & Hname & Hlink & Hsev & Hpkg).
  exists v. repeat split; try assumption.
  - intro Ht. now rewrite Ht in Hpkg.
  - intro Hf. now rewrite Hf in Hpkg.
Qed.

Lemma record_fields_of_advisory_witness :
  exists v, processVulnerability
              (VObj [("title", VStr "Prototype Pollution");
                     ("module_name", VStr "lodash");
                     ("url", VStr "https://npmjs.com/advisories/1065");
                     ("severity", VStr "HIGH")])
            = Ok (Some v)
            /\ link v = VStr "https://npmjs.com/advisories/1065"
            /\ name v = VStr "Prototype Pollution"
            /\ severity v = VStr "HIGH"
            /\ package v = VStr "lodash".
Proof.
  destruct (record_fields_of_advisory
              (VObj [("title", VStr "Prototype Pollution");
                     ("module_name", VStr "lodash");
                     ("url", VStr "https://npmjs.com/advisories/1065");
                     ("severity", VStr "HIGH")])
              eq_refl eq_refl eq_refl)
    as (v & Hv & Hlink & Hname & Hsev & _ & Hpkg).
  exists v. repeat split; try assumption.
  apply Hpkg. reflexivity.
Defined.

(** X7: the [cwes] text of a record built from sequences of strings.
    With [cves] present it is the CWE identifiers followed by the CVE
    identifiers, joined with [", "].  With [cves] absent it is the CWE
    identifiers joined with [", "] and one more [", "] at the end, or the
    empty text when there is no CWE identifier either. *)
Theorem cwes_text_of_record (e : value) (v : Vulnerability) :
  processVulnerability e = Ok (Some v) ->
  absent_or_strings (prop e "cwe") = true ->
  absent_or_strings (prop e "cves") = true ->
  (forall ids, prop e "cves" = VArr ids ->
     cwes v = String.concat ", "
                (identifiers (prop e "cwe") ++ identifiers (prop e "cves"))%list)
  /\ (prop e "cves" = VUndefined -> identifiers (prop e "cwe") <> [] ->
      cwes v = String.concat ", " (identifiers (prop e "cwe")) ++ ", ")
  /\ (prop e "cves" = VUndefined -> identifiers (prop e "cwe") = [] ->
      cwes v = "").
Proof.
  intros Hv Hcwe Hcves.
  pose proof (cwes_of_record e v Hv Hcwe Hcves) as H.
  split; [|split].
  - intros ids Hids. now rewrite Hids in H |- *.
  - intros Habs Hne. rewrite Habs in H. rewrite H.
    now apply concat_with_empty_last.
  - intros Habs Hnil. rewrite Habs, Hnil in H. exact H.
Qed.

Lemma cwes_text_of_record_witness :
  exists v, processVulnerability Sample.advisory_foo = Ok (Some v)
            /\ cwes v = "CWE-1, CVE-2020-1".
Proof.
  eexists. split; [reflexivity|].
  apply (proj1 (cwes_text_of_record Sample.advisory_foo _
                  eq_refl eq_refl eq_refl)
           [VStr "CVE-2020-1"] eq_refl).
Defined.

(** ** More on the normalizer *)

Section NormalizerEdges.

Lemma untitled_entries_map_to_nothing (raw : list value) :
  (forall e, In e raw ->
             e <> VNull /\ e <> VUndefined /\ is_titled_object e = false) ->
  map_result processVulnerability raw = Ok (map (fun _ => None) raw).
Proof.
  induction raw as [|e raw IH]; intro H; simpl; [reflexivity|].
  destruct (H e (or_introl eq_refl)) as (Hnull & Hundef & Huntitled).
  rewrite processVulnerability_untitled; [|
    unfold raw_entry_ok; rewrite (title_of_untitled e Huntitled);
    destruct e; try reflexivity; congruence | assumption].
  simpl. rewrite IH by (intros x Hx; apply H; now right). reflexivity.
Qed.

Lemma keep_defined_of_nothing (raw : list value) :
  keep_defined (map (fun _ => None) raw) = [].
Proof. induction raw; simpl; auto. Qed.

Lemma via_of_package_entries (packages : list (string * list value)) :
  flat_map via_elements (map snd (map package_entry packages))
  = concat (map snd packages).
Proof.
  induction packages as [|[p via] packages IH]; simpl; [reflexivity|].
  now rewrite IH.
Qed.

Lemma allVulns_of_legacy_document (advisories : list (string * value)) :
  NoDup (map fst advisories) ->
  allVulns (legacy_document advisories) = Ok (map snd advisories).
Proof.
  intro Hnd. unfold allVulns, legacy_document. simpl.
  rewrite (legacy_loop_collects (VObj advisories) eq_refl). simpl.
  f_equal. apply (values_in_key_order (VObj advisories)). exact Hnd.
Qed.

Lemma allVulns_of_modern_document (packages : list (string * list value)) :
  NoDup (map fst packages) ->
  allVulns (modern_document packages) = Ok (concat (map snd packages)).
Proof.
  intro Hnd. unfold allVulns, modern_document. simpl.
  set (vulns := VObj (map package_entry packages)).
  assert (Hkeys : NoDup (for_in vulns)).
  { unfold for_in, vulns. simpl. rewrite map_map. simpl. exact Hnd. }
  pose proof (values_in_key_order vulns Hkeys) as Hvalues.
  rewrite (modern_loop_collects vulns eq_refl);
    change (prop (VObj [("vulnerabilities", vulns)]) "vulnerabilities")
      with vulns.
  - simpl. f_equal.
    rewrite <- via_of_package_entries.
    change (map snd (map package_entry packages))
      with (map snd (own_props vulns)).
    rewrite <- Hvalues. now rewrite flat_map_concat_map, <- map_map,
                          <- flat_map_concat_map.
  - intros k Hk. apply (in_map (prop vulns)) in Hk.
    rewrite Hvalues in Hk. unfold vulns in Hk. simpl in Hk.
    rewrite map_map in Hk. apply in_map_iff in Hk.
    destruct Hk as ([p via] & Heq & _). fold vulns in Heq.
    rewrite <- Heq. reflexivity.
Qed.

Lemma count_permutation (vs vs' : list Vulnerability) (sev : string) :
  Permutation vs vs' ->
  countVulnerabilities vs sev = countVulnerabilities vs' sev.
Proof.
  induction 1 as [|v l l' _ IH|v w l|l l' l'' _ IH1 _ IH2].
  - reflexivity.
  - now rewrite !countVulnerabilities_cons, IH.
  - rewrite !countVulnerabilities_cons. lia.
  - congruence.
Qed.

Lemma new_Set_nonempty (l acc : list value) :
  length acc <= length (fold_left set_add l acc).
Proof.
  revert acc. induction l as [|x l IH]; intro acc; simpl; [lia|].
  specialize (IH (set_add acc x)). unfold set_add in *.
  destruct (existsb (strict_equals x) acc); [exact IH|].
  rewrite length_app in IH. simpl in IH. lia.
Qed.

End NormalizerEdges.

(** X8: when no raw entry is a titled object (a package whose [via] names
    only other packages, say), and none is [null], the report is empty:
    no record, every count zero. *)
Theorem untitled_entries_give_empty_report (data : value) (raw : list value) :
  allVulns data = Ok raw ->
  (forall e, In e raw ->
             e <> VNull /\ e <> VUndefined /\ is_titled_object e = false) ->
  getVulnerabilities data = Ok []
  /\ forall env, exists t,
       templateData env data = Ok t
       /\ vulnerabilities t = [] /\ vulnsFound t = 0
       /\ vulnerableDependencies t = 0
       /\ criticalVulns t + highVulns t + moderateVulns t + lowVulns t
          + infoVulns t = 0.
Proof.
  intros Hraw Hall.
  assert (H : getVulnerabilities data = Ok []).
  { unfold getVulnerabilities. rewrite Hraw. simpl.
    rewrite (untitled_entries_map_to_nothing raw Hall). simpl.
    now rewrite keep_defined_of_nothing. }
  split; [exact H|]. intro env. unfold templateData. rewrite H. simpl.
  eexists. split; [reflexivity|]. repeat split.
Qed.

Lemma untitled_entries_give_empty_report_witness :
  getVulnerabilities
    (modern_document [("docs", [VStr "marked"; VStr "lodash"]); ("app", [])])
  = Ok [].
Proof.
  apply (proj1 (untitled_entries_give_empty_report
                  (modern_document [("docs", [VStr "marked"; VStr "lodash"]);
                                    ("app", [])])
                  [VStr "marked"; VStr "lodash"] eq_refl
                  ltac:(intros e [<-|[<-|[]]];
                        (split; [discriminate | split;
                                 [discriminate | reflexivity]])))).
Defined.

(** X9: the two schemas are reconciled.  A legacy document and a modern
    document that hold the same advisories in the same order (the modern
    one spread over the [via] sequences of its packages) give the same
    list and the same payload. *)
Theorem both_schemas_give_the_same_report
  (advisories : list (string * value))
  (packages : list (string * list value)) :
  NoDup (map fst advisories) -> NoDup (map fst packages) ->
  concat (map snd packages) = map snd advisories ->
  getVulnerabilities (legacy_document advisories)
  = getVulnerabilities (modern_document packages)
  /\ forall env, templateData env (legacy_document advisories)
                 = templateData env (modern_document packages).
Proof.
  intros Ha Hp Hsame.
  assert (H : getVulnerabilities (legacy_document advisories)
              = getVulnerabilities (modern_document packages)).
  { unfold getVulnerabilities.
    rewrite (allVulns_of_legacy_document _ Ha),
            (allVulns_of_modern_document _ Hp), Hsame.
    reflexivity. }
  split; [exact H|]. intro env. unfold templateData. now rewrite H.
Qed.

Lemma both_schemas_give_the_same_report_witness :
  getVulnerabilities
    (legacy_document [("1065", Sample.advisory_foo);
                      ("1523", Sample.advisory_xss)])
  = getVulnerabilities
      (modern_document [("bar", [Sample.advisory_foo]);
                        ("marked", [Sample.advisory_xss])]).
Proof.
  apply (proj1 (both_schemas_give_the_same_report
                  [("1065", Sample.advisory_foo); ("1523", Sample.advisory_xss)]
                  [("bar", [Sample.advisory_foo]);
                   ("marked", [Sample.advisory_xss])]
                  ltac:(repeat constructor; simpl; intuition discriminate)
                  ltac:(repeat constructor; simpl; intuition discriminate)
                  eq_refl)).
Defined.

(** X10: a top-level value that is not an object has neither key: an
    array, a string, a number or a boolean gives the empty list, and
    [null] makes line 106 throw. *)
Theorem non_object_document (data : value) :
  (forall props, data <> VObj props) ->
  (data = VNull -> getVulnerabilities data = Throw TypeError)
  /\ (data <> VNull -> data <> VUndefined -> getVulnerabilities data = Ok []).
Proof.
  intro Hnot. split.
  - intros ->. reflexivity.
  - intros Hnull Hundef. unfold getVulnerabilities, allVulns.
    rewrite !(get_of_defined data _ Hnull Hundef).
    assert (Hprop : forall k, starts_with_digit k = false ->
                              prop data k = VUndefined).
    { intros k Hk. destruct data; try reflexivity; try congruence;
        unfold prop; simpl; now rewrite assoc_indexed_name. }
    rewrite !Hprop by reflexivity. reflexivity.
Qed.

Lemma non_object_document_witness :
  getVulnerabilities (VArr [Sample.advisory_foo]) = Ok []
  /\ getVulnerabilities VNull = Throw TypeError.
Proof.
  split.
  - apply (proj2 (non_object_document (VArr [Sample.advisory_foo])
                    ltac:(discriminate)));
      discriminate.
  - apply (proj1 (non_object_document VNull ltac:(discriminate))).
    reflexivity.
Defined.

(** ** More on the aggregator and the payload *)

Lemma names_of_kept_records (raw : list value)
  (mapped : list (option Vulnerability)) :
  Forall2 mapped_from raw mapped ->
  Forall (fun v => truthy (name v) = true) (keep_defined mapped).
Proof.
  induction 1 as [|e r raw mapped [Hiff Hname] _ IH]; [constructor|].
  destruct r as [v|]; simpl; [|exact IH].
  constructor; [|exact IH].
  rewrite (Hname v eq_refl), <- is_titled_object_title.
  apply Hiff. discriminate.
Qed.

(** X11: the aggregates do not depend on the order of the list: a
    permutation of it has the same length and the same count for every
    severity, and, its packages being compared by content, the same number
    of distinct packages. *)
Theorem aggregates_ignore_order (vs vs' : list Vulnerability) :
  Permutation vs vs' ->
  length vs = length vs'
  /\ (forall sev, countVulnerabilities vs sev = countVulnerabilities vs' sev)
  /\ (forallb primitive (map package vs) = true ->
      distinctPackages vs = distinctPackages vs').
Proof.
  intro Hperm. split; [now apply Permutation_length|].
  split; [intro sev; now apply count_permutation|].
  intro Hprim. unfold distinctPackages.
  pose proof (Permutation_map package Hperm) as Hpkg.
  assert (Hprim' : forallb primitive (map package vs') = true).
  { rewrite forallb_forall in *. intros x Hx. apply Hprim.
    now apply (Permutation_in _ (Permutation_sym Hpkg)). }
  destruct (fold_set_add_primitives (map package vs') [] Hprim' (NoDup_nil _))
    as [Hnd Hin].
  apply new_Set_distinct; [assumption | exact Hnd |].
  intro x. unfold new_Set. rewrite Hin. simpl. split.
  - intros [[]|Hx]. now apply (Permutation_in _ (Permutation_sym Hpkg)).
  - intro Hx. right. now apply (Permutation_in _ Hpkg).
Qed.

Lemma aggregates_ignore_order_witness :
  distinctPackages [Sample.left_pad "high"; Sample.left_pad "low"]
  = distinctPackages [Sample.left_pad "low"; Sample.left_pad "high"]
  /\ countVulnerabilities [Sample.left_pad "high"; Sample.left_pad "low"] "low"
     = countVulnerabilities [Sample.left_pad "low"; Sample.left_pad "high"] "low".
Proof.
  pose proof (aggregates_ignore_order
                [Sample.left_pad "high"; Sample.left_pad "low"]
                [Sample.left_pad "low"; Sample.left_pad "high"]
                (perm_swap _ _ _)) as (_ & Hcount & Hdistinct).
  split; [apply Hdistinct; reflexivity | apply Hcount].
Defined.

(** X12: every payload the code builds is consistent: its list is the
    normalized list, [vulnsFound] is its length, [vulnerableDependencies]
    is at most that and is zero exactly when the list is empty, the five
    severity counts add up to at most [vulnsFound], the timestamp is the
    clock's, and every record has a truthy [name]. *)
Theorem payload_invariants (env : Process) (data : value) (t : TemplateData) :
  templateData env data = Ok t ->
  getVulnerabilities data = Ok (vulnerabilities t)
  /\ vulnsFound t = length (vulnerabilities t)
  /\ vulnerableDependencies t <= vulnsFound t
  /\ (vulnerableDependencies t = 0 <-> vulnsFound t = 0)
  /\ criticalVulns t + highVulns t + moderateVulns t + lowVulns t
     + infoVulns t <= vulnsFound t
  /\ currentDate t = getCurrentDate env
  /\ Forall (fun v => truthy (name v) = true) (vulnerabilities t).
Proof.
  unfold templateData. intro H.
  destruct (getVulnerabilities data) as [vs|] eqn:Hvs; simpl in H;
    [|discriminate].
  injection H as <-. simpl.
  assert (Hle : distinctPackages vs <= length vs).
  { unfold distinctPackages, new_Set.
    pose proof (fold_set_add_length (map package vs) []) as Hl.
    rewrite length_map in Hl. exact Hl. }
  split; [reflexivity|]. split; [reflexivity|]. split; [exact Hle|].
  split; [|split; [|split; [reflexivity|]]].
  - split; [|intro H0; lia].
    destruct vs as [|v vs]; [reflexivity|].
    unfold distinctPackages, new_Set. simpl.
    pose proof (new_Set_nonempty (map package vs) (set_add [] (package v)))
      as Hn.
    change (set_add [] (package v)) with [package v] in *.
    simpl in Hn. lia.
  - change (severity_sum vs <= length vs).
    rewrite severity_sum_counts_known. apply filter_length_le.
  - unfold getVulnerabilities in Hvs.
    destruct (allVulns data) as [raw|]; simpl in Hvs; [|discriminate].
    destruct (map_result processVulnerability raw) as [mapped|] eqn:Hmap;
      simpl in Hvs; [|discriminate].
    injection Hvs as <-.
    apply (names_of_kept_records raw).
    apply (map_result_Forall2 _ _ _ _ processVulnerability_result Hmap).
Qed.

Lemma payload_invariants_witness :
  exists t, templateData Sample.linux Sample.modern_doc = Ok t
            /\ (vulnerableDependencies t = 0 <-> vulnsFound t = 0)
            /\ vulnerableDependencies t <= vulnsFound t.
Proof.
  eexists. split; [reflexivity|].
  pose proof (payload_invariants Sample.linux Sample.modern_doc _ eq_refl)
    as (_ & _ & Hle & Hzero & _).
  split; [exact Hzero | exact Hle].
Defined.

(** ** The run as a whole *)

Section Run.

Context {Disk : Type} `{FileSystem Disk}.
Variable parse : string -> option value.
Variable render : value -> result string.

Lemma concat_of_chunks (a : string) (l : list string) :
  String.concat "" (a :: l) = a ++ String.concat "" l.
Proof. destruct l; simpl; [now rewrite append_empty | reflexivity]. Qed.

Lemma fold_chunks (chunks : list string) (acc : string) :
  fold_left (fun acc chunk => acc ++ chunk) chunks acc
  = acc ++ String.concat "" chunks.
Proof.
  revert acc. induction chunks as [|c chunks IH]; intro acc.
  - simpl. now rewrite append_empty.
  - cbn [fold_left]. rewrite IH, concat_of_chunks.
    apply append_associative.
Qed.

Lemma inputData_is_concatenation (chunks : list string) :
  inputData chunks = String.concat "" chunks.
Proof. unfold inputData. now rewrite fold_chunks. Qed.

Lemma main_closed_form (env : Process) (disk : Disk) (chunks : list string) :
  main parse render env disk chunks
  = writeIfFolderExists parse render env disk (chosen_folder env)
      (chosen_folder env ++ separator env ++ chosen_name env)
      (String.concat "" chunks).
Proof.
  unfold main, processInput.
  rewrite final_path_closed_form, folderPath_is_chosen_folder,
          inputData_is_concatenation.
  reflexivity.
Qed.

(** X13: when the folder is not visible the run prints that the folder
    does not exist and exits with code 1, leaving the disk as it was,
    whatever arrived on standard input: the input is not even parsed. *)
Theorem missing_folder_stops_the_run (env : Process) (disk : Disk)
  (chunks : list string) :
  access disk (chosen_folder env) = false ->
  main parse render env disk chunks
  = {| disk_after := disk; stdout := [];
       stderr := ["Error: The provided folder does not exist."];
       ending := Exit 1 |}.
Proof.
  intro Hno. rewrite main_closed_form. unfold writeIfFolderExists.
  now rewrite Hno.
Qed.

(** X14: the run exits with code 0 exactly when the folder is visible,
    the input parses, the pipeline and the renderer return a page, and
    writing it succeeds; the disk is then the one that write left, at the
    final path, and the only line printed is the success message. *)
Theorem exit_zero_means_report_written (env : Process) (disk : Disk)
  (chunks : list string) :
  let path := chosen_folder env ++ separator env ++ chosen_name env in
  let run := main parse render env disk chunks in
  (ending run = Exit 0 <->
   access disk (chosen_folder env) = true
   /\ exists page,
        generateHtmlFromText parse render env (String.concat "" chunks)
        = inr page
        /\ snd (writeFile disk path page) = None)
  /\ (ending run = Exit 0 ->
      exists page,
        generateHtmlFromText parse render env (String.concat "" chunks)
        = inr page
        /\ disk_after run = fst (writeFile disk path page)
        /\ stdout run = ["Audit exported successfully!"]
        /\ stderr run = []).
Proof.
  intros path run. subst run. rewrite main_closed_form. fold path.
  unfold writeIfFolderExists, writeOutput.
  destruct (access disk (chosen_folder env)); simpl.
  - destruct (generateHtmlFromText parse render env (String.concat "" chunks))
      as [why|page]; simpl.
    + split; [split|]; try discriminate.
      intros (_ & page & Hp & _). discriminate.
    + destruct (writeFile disk path page) as [disk' [err|]] eqn:E; simpl.
      * split; [split|]; try discriminate.
        intros (_ & page' & Hp & Hw). injection Hp as <-.
        rewrite E in Hw. discriminate.
      * split.
        -- split; [|reflexivity]. intros _. split; [reflexivity|].
           exists page. split; [reflexivity|]. now rewrite E.
        -- intros _. exists page. rewrite E. repeat split.
  - split; [split|]; try discriminate.
    intros (Hacc & _). discriminate.
Qed.

(** X15: the run writes at most once, and only the rendered page at the
    final path: the disk it leaves is the one it found, or the one that
    write left.  When the input does not parse, or the pipeline or the
    renderer throws, in a visible folder, the exception is not caught,
    nothing is written and no message is printed. *)
Theorem only_the_report_is_written (env : Process) (disk : Disk)
  (chunks : list string) :
  let path := chosen_folder env ++ separator env ++ chosen_name env in
  let run := main parse render env disk chunks in
  (disk_after run = disk
   \/ exists page,
        access disk (chosen_folder env) = true
        /\ generateHtmlFromText parse render env (String.concat "" chunks)
           = inr page
        /\ disk_after run = fst (writeFile disk path page))
  /\ (forall why,
        access disk (chosen_folder env) = true ->
        generateHtmlFromText parse render env (String.concat "" chunks)
        = inl why ->
        run = {| disk_after := disk; stdout := []; stderr := [];
                 ending := Uncaught why |}).
Proof.
  intros path run. subst run. rewrite main_closed_form. fold path.
  unfold writeIfFolderExists, writeOutput. split.
  - destruct (access disk (chosen_folder env)); [|left; reflexivity].
    destruct (generateHtmlFromText parse render env (String.concat "" chunks))
      as [why|page]; [left; reflexivity|].
    right. exists page. split; [reflexivity|]. split; [reflexivity|].
    destruct (writeFile disk path page) as [disk' [err|]]; reflexivity.
  - intros why Hacc Hgen. now rewrite Hacc, Hgen.
Qed.

(** X16: standard input may arrive in any number of chunks: the text
    processed is their concatenation, so two ways of cutting the same
    text give the same run. *)
Theorem chunking_does_not_matter (env : Process) (disk : Disk)
  (chunks1 chunks2 : list string) :
  inputData (chunks1 ++ chunks2) = inputData chunks1 ++ inputData chunks2
  /\ (String.concat "" chunks1 = String.concat "" chunks2 ->
      main parse render env disk chunks1 = main parse render env disk chunks2).
Proof.
  split.
  - unfold inputData at 1. rewrite fold_left_app.
    fold (inputData chunks1). rewrite fold_chunks.
    now rewrite <- inputData_is_concatenation.
  - intro Hsame. rewrite !main_closed_form. now rewrite Hsame.
Qed.

(** X17: the process ends with status 0 or 1, and with 1 in exactly
    three cases: the folder is not visible; the input does not parse, or
    the pipeline or the renderer throws (the exception is not caught); the
    page was built and writing it failed.  In the last case the script's
    one output is a [console.error] of the message, a space and the error
    as printed, nothing goes to [console.log], and the disk is the one the
    failed write left. *)
Theorem exit_status_one_cases (env : Process) (disk : Disk)
  (chunks : list string) :
  let path := chosen_folder env ++ separator env ++ chosen_name env in
  let run := main parse render env disk chunks in
  (exit_status (ending run) = 0 \/ exit_status (ending run) = 1)
  /\ (exit_status (ending run) = 1 <->
      access disk (chosen_folder env) = false
      \/ (exists why,
            generateHtmlFromText parse render env (String.concat "" chunks)
            = inl why)
      \/ (exists page err,
            generateHtmlFromText parse render env (String.concat "" chunks)
            = inr page
            /\ snd (writeFile disk path page) = Some err))
  /\ (forall page err,
        access disk (chosen_folder env) = true ->
        generateHtmlFromText parse render env (String.concat "" chunks)
        = inr page ->
        snd (writeFile disk path page) = Some err ->
        ending run = Exit 1
        /\ stderr run = ["Error: Unable to write to file. " ++ err]
        /\ stdout run = []
        /\ disk_after run = fst (writeFile disk path page)).
Proof.
  intros path run. subst run. rewrite main_closed_form. fold path.
  unfold writeIfFolderExists, writeOutput. split; [|split].
  - destruct (access disk (chosen_folder env)); [|right; reflexivity].
    destruct (generateHtmlFromText parse render env (String.concat "" chunks))
      as [why|page]; [right; reflexivity|].
    destruct (writeFile disk path page) as [disk' [err|]];
      [right | left]; reflexivity.
  - destruct (access disk (chosen_folder env)); simpl;
      [|split; [left; reflexivity | reflexivity]].
    destruct (generateHtmlFromText parse render env (String.concat "" chunks))
      as [why|page]; simpl.
    + split; [|reflexivity]. intros _. right. left. now exists why.
    + destruct (writeFile disk path page) as [disk' [err|]] eqn:E; simpl.
      * split; [|reflexivity]. intros _. right. right. exists page, err.
        split; [reflexivity|]. now rewrite E.
      * split; [discriminate|].
        intros [Hacc|[(why & Hw)|(page' & err & Hp & Hw)]];
          try discriminate.
        injection Hp as <-. rewrite E in Hw. discriminate.
  - intros page err Hacc Hgen Hw. rewrite Hacc, Hgen.
    destruct (writeFile disk path page) as [disk' [err'|]]; simpl in *;
      [|discriminate].
    injection Hw as ->. repeat split.
Qed.

End Run.

Lemma missing_folder_stops_the_run_witness :
  main SampleDisk.parse SampleDisk.render Sample.titled SampleDisk.disk
    ["not"; " json"]
  = {| disk_after := SampleDisk.disk; stdout := [];
       stderr := ["Error: The provided folder does not exist."];
       ending := Exit 1 |}.
Proof.
  apply (missing_folder_stops_the_run SampleDisk.parse SampleDisk.render
           Sample.titled SampleDisk.disk ["not"; " json"]).
  reflexivity.
Defined.

Lemma exit_zero_means_report_written_witness :
  exists page,
    generateHtmlFromText SampleDisk.parse SampleDisk.render Sample.linux
      (String.concat "" ["{.."; ".}"]) = inr page
    /\ SampleDisk.files
         (disk_after (main SampleDisk.parse SampleDisk.render Sample.linux
                        SampleDisk.disk ["{.."; ".}"]))
       = [("out/report.html", page)]
    /\ stdout (main SampleDisk.parse SampleDisk.render Sample.linux
                 SampleDisk.disk ["{.."; ".}"])
       = ["Audit exported successfully!"].
Proof.
  pose proof (exit_zero_means_report_written SampleDisk.parse
                SampleDisk.render Sample.linux SampleDisk.disk
                ["{.."; ".}"]) as Hrun.
  cbv zeta in Hrun. destruct Hrun as [_ Hrun].
  assert (Hexit : ending (main SampleDisk.parse SampleDisk.render Sample.linux
                            SampleDisk.disk ["{.."; ".}"]) = Exit 0)
    by (vm_compute; reflexivity).
  destruct (Hrun Hexit) as (page & Hpage & Hdisk & Hout & _).
  exists page. split; [exact Hpage|]. split; [|exact Hout].
  rewrite Hdisk.
  assert (Hp : inr page = inr (B := string) "<html>1</html>")
    by (rewrite <- Hpage; reflexivity).
  injection Hp as ->. reflexivity.
Defined.

Lemma only_the_report_is_written_witness :
  main SampleDisk.parse SampleDisk.render Sample.linux SampleDisk.disk
    ["not json"]
  = {| disk_after := SampleDisk.disk; stdout := []; stderr := [];
       ending := Uncaught SyntaxError |}.
Proof.
  apply (proj2 (only_the_report_is_written SampleDisk.parse SampleDisk.render
                  Sample.linux SampleDisk.disk ["not json"]) SyntaxError);
    reflexivity.
Defined.

Lemma chunking_does_not_matter_witness :
  main SampleDisk.parse SampleDisk.render Sample.linux SampleDisk.disk
    ["{.."; ".}"]
  = main SampleDisk.parse SampleDisk.render Sample.linux SampleDisk.disk
      ["{"; "..."; "}"].
Proof.
  apply (proj2 (chunking_does_not_matter SampleDisk.parse SampleDisk.render
                  Sample.linux SampleDisk.disk ["{.."; ".}"] ["{"; "..."; "}"])).
  reflexivity.
Defined.

Lemma exit_status_one_cases_witness :
  exit_status
    (ending (main SampleDisk.parse SampleDisk.render Sample.linux
               SampleDisk.disk ["not json"])) = 1
  /\ stderr (main SampleDisk.parse SampleDisk.render
               {| platform := "linux";
                  argv := ["node"; "audit-export"; "/etc"; "motd"];
                  cwd := "/"; now := Sample.clock |}
               {| SampleDisk.visible := ["/etc"]; SampleDisk.files := [];
                  SampleDisk.read_only := "/etc" |}
               ["{...}"])
     = ["Error: Unable to write to file. EACCES: permission denied"].
Proof.
  split.
  - apply (proj1 (proj2 (exit_status_one_cases SampleDisk.parse
                           SampleDisk.render Sample.linux SampleDisk.disk
                           ["not json"]))).
    right. left. exists SyntaxError. reflexivity.
  - apply (proj2 (proj2 (exit_status_one_cases SampleDisk.parse
                           SampleDisk.render
                           {| platform := "linux";
                              argv := ["node"; "audit-export"; "/etc"; "motd"];
                              cwd := "/"; now := Sample.clock |}
                           {| SampleDisk.visible := ["/etc"];
                              SampleDisk.files := [];
                              SampleDisk.read_only := "/etc" |}
                           ["{...}"]))
             "<html>1</html>" "EACCES: permission denied");
      reflexivity.
Defined.
